(** * Container preparation of linuxkit's service command

    A shallow embedding of [pkg/init/cmd/service/prepare.go]: the mount
    option translator [parseMountOptions], the filesystem preparer
    [prepareFilesystem] with its two strategies [prepareRO] and
    [prepareRW], the namespace binder [bindNS], the process preparation
    [prepareProcess] and the teardown [cleanup].

    The program is a sequence of system calls.  Every call it issues is
    recorded in a trace, and the answer of the operating system to a call
    is read from an arbitrary function of the calls issued so far and the
    call itself, so every theorem holds for every behaviour of the
    operating system. *)

From Stdlib Require Import ZArith List String Ascii Bool Lia.
From Stdlib Require Import DecimalString Permutation.
Import ListNotations.
Local Open Scope string_scope.
Local Open Scope Z_scope.
Local Open Scope list_scope.

(** String concatenation, as [+] on Go strings and the verbs [%s] and [%v]
    of [fmt]; [++] is kept for lists. *)
Infix "+++" := String.append (right associativity, at level 60).

(** ** Mount flags

    The values [golang.org/x/sys/unix] gives these constants on Linux. *)
Module unix.
Definition MS_RDONLY : Z := 0x1.
Definition MS_NOSUID : Z := 0x2.
Definition MS_NODEV : Z := 0x4.
Definition MS_NOEXEC : Z := 0x8.
Definition MS_SYNCHRONOUS : Z := 0x10.
Definition MS_REMOUNT : Z := 0x20.
Definition MS_MANDLOCK : Z := 0x40.
Definition MS_DIRSYNC : Z := 0x80.
Definition MS_NOATIME : Z := 0x400.
Definition MS_NODIRATIME : Z := 0x800.
Definition MS_BIND : Z := 0x1000.
Definition MS_REC : Z := 0x4000.
Definition MS_PRIVATE : Z := 0x40000.
Definition MS_RELATIME : Z := 0x200000.
Definition MS_STRICTATIME : Z := 0x1000000.
End unix.

(** ** The mount option translator *)

(** An entry of the table: [clear] and [flag]. *)
Record flagEntry := { clear : bool; flag : Z }.

(** The table [flags] of [parseMountOptions]; a Go map literal has no
    duplicate keys, so the first match of [lookup] is the only one. *)
Definition flags : list (string * flagEntry) :=
  [ ("async",         {| clear := true;  flag := unix.MS_SYNCHRONOUS |});
    ("atime",         {| clear := true;  flag := unix.MS_NOATIME |});
    ("bind",          {| clear := false; flag := unix.MS_BIND |});
    ("defaults",      {| clear := false; flag := 0 |});
    ("dev",           {| clear := true;  flag := unix.MS_NODEV |});
    ("diratime",      {| clear := true;  flag := unix.MS_NODIRATIME |});
    ("dirsync",       {| clear := false; flag := unix.MS_DIRSYNC |});
    ("exec",          {| clear := true;  flag := unix.MS_NOEXEC |});
    ("mand",          {| clear := false; flag := unix.MS_MANDLOCK |});
    ("noatime",       {| clear := false; flag := unix.MS_NOATIME |});
    ("nodev",         {| clear := false; flag := unix.MS_NODEV |});
    ("nodiratime",    {| clear := false; flag := unix.MS_NODIRATIME |});
    ("noexec",        {| clear := false; flag := unix.MS_NOEXEC |});
    ("nomand",        {| clear := true;  flag := unix.MS_MANDLOCK |});
    ("norelatime",    {| clear := true;  flag := unix.MS_RELATIME |});
    ("nostrictatime", {| clear := true;  flag := unix.MS_STRICTATIME |});
    ("nosuid",        {| clear := false; flag := unix.MS_NOSUID |});
    ("rbind",         {| clear := false; flag := Z.lor unix.MS_BIND unix.MS_REC |});
    ("relatime",      {| clear := false; flag := unix.MS_RELATIME |});
    ("remount",       {| clear := false; flag := unix.MS_REMOUNT |});
    ("ro",            {| clear := false; flag := unix.MS_RDONLY |});
    ("rw",            {| clear := true;  flag := unix.MS_RDONLY |});
    ("strictatime",   {| clear := false; flag := unix.MS_STRICTATIME |});
    ("suid",          {| clear := true;  flag := unix.MS_NOSUID |});
    ("sync",          {| clear := false; flag := unix.MS_SYNCHRONOUS |}) ].

(** [flags[o]]: the entry of a key, when there is one. *)
Fixpoint lookup (tbl : list (string * flagEntry)) (o : string) : option flagEntry :=
  match tbl with
  | [] => None
  | (k, f) :: tbl' => if String.eqb k o then Some f else lookup tbl' o
  end.

(** One turn of the loop of [parseMountOptions] on the pair of the
    accumulated [flag] and [data]: [flag &^= f.flag] is [Z.ldiff],
    [flag |= f.flag] is [Z.lor], [append] adds at the end. *)
Definition parseStep (acc : Z * list string) (o : string) : Z * list string :=
  let '(fl, data) := acc in
  match lookup flags o with
  | Some f =>
      if negb (flag f =? 0) then
        if clear f then (Z.ldiff fl (flag f), data)
        else (Z.lor fl (flag f), data)
      else (fl, data ++ [o])
  | None => (fl, data ++ [o])
  end.

(** The loop [for _, o := range options] from a given accumulator. *)
Definition parseLoop (options : list string) (acc : Z * list string) : Z * list string :=
  fold_left parseStep options acc.

(** [parseMountOptions]: both variables start at their zero value, and
    the data is joined with commas ([strings.Join]). *)
Definition parseMountOptions (options : list string) : Z * string :=
  let '(fl, data) := parseLoop options (0, []) in
  (fl, String.concat "," data).

(** ** Data of the runtime configuration *)

(** [specs.Mount] of the OCI runtime specification. *)
Module specs.
Record Mount := {
  Destination : string;
  Type_ : string;
  Source : string;
  Options : list string
}.
End specs.

(** The links of [vishvananda/netlink] the program builds.  The field
    [Namespace] holds [netlink.NsPid(pid)] as [Some pid] and [nil] as
    [None]. *)
Module netlink.
Record LinkAttrs := { Name : string; Namespace : option Z }.

Inductive Link :=
| Veth (la : LinkAttrs) (PeerName : string)
| GenericLink (la : LinkAttrs) (LinkType : string)
| Existing (name : string).  (* the link [LinkByName] found *)
End netlink.

Record Namespaces := {
  Cgroup : string;
  Ipc : string;
  Mnt : string;
  Net : string;
  Pid : string;
  User : string;
  Uts : string
}.

Record Interface := {
  Name : string;
  Add : string;
  Peer : string;
  CreateInRoot : bool
}.

Record Runtime := {
  Mounts : list specs.Mount;
  Mkdir : list string;
  Interfaces : list Interface;
  BindNS : Namespaces
}.

(** ** Errors and system calls *)

(** A Go [error] value: one an operating system or library call returned,
    with its message and whether [os.IsNotExist] holds of it, or one made
    by [fmt.Errorf]. *)
Inductive error :=
| OSError (msg : string) (notExist : bool)
| Errorf (msg : string).

(** [err.Error()], which the verb [%v] prints. *)
Definition Error (err : error) : string :=
  match err with
  | OSError msg _ => msg
  | Errorf msg => msg
  end.

Definition IsNotExist (err : error) : bool :=
  match err with
  | OSError _ notExist => notExist
  | Errorf _ => false
  end.

(** The calls the program makes outside itself. *)
Inductive Call :=
| os_MkdirAll (path : string) (perm : Z)
| os_Mkdir (name : string) (perm : Z)
| os_Stat (name : string)
| os_Create (name : string)
| File_Close (name : string)
| os_RemoveAll (path : string)
| unix_Mount (source target fstype : string) (flags : Z) (data : string)
| unix_Unmount (target : string) (flags : Z)
| netlink_LinkAdd (link : netlink.Link)
| netlink_LinkByName (name : string)
| netlink_LinkSetNsPid (link : netlink.Link) (nspid : Z)
| Fprintf_Stderr (msg : string).

Definition trace := list Call.

(** The behaviour of the operating system: the error of a call, [None]
    for success, given the calls made before it. *)
Definition System := trace -> Call -> option error.

(** The mode [0755]. *)
Definition mode0755 : Z := 7 * 64 + 5 * 8 + 5.

(** The line feed that ends the messages on standard error. *)
Definition newline : string := String (ascii_of_nat 10) EmptyString.

(** The verb [%d] on an [int]. *)
Definition itoa (n : Z) : string := NilZero.string_of_int (Z.to_int n).

(** Which calls create a directory or a file, which mount, which unmount;
    and the paths a call names. *)
Definition is_mount (c : Call) : bool :=
  match c with unix_Mount _ _ _ _ _ => true | _ => false end.

Definition is_unmount (c : Call) : bool :=
  match c with unix_Unmount _ _ => true | _ => false end.

Definition is_remove (c : Call) : bool :=
  match c with os_RemoveAll _ => true | _ => false end.

Definition is_create (c : Call) : bool :=
  match c with
  | os_MkdirAll _ _ | os_Mkdir _ _ | os_Create _ => true
  | _ => false
  end.

(** A call on the file system or the mount table. *)
Definition is_fs (c : Call) : bool :=
  match c with
  | netlink_LinkAdd _ | netlink_LinkByName _ | netlink_LinkSetNsPid _ _
  | Fprintf_Stderr _ => false
  | _ => true
  end.

Definition paths_of (c : Call) : list string :=
  match c with
  | os_MkdirAll p _ | os_Mkdir p _ | os_Stat p | os_Create p | File_Close p
  | os_RemoveAll p | unix_Unmount p _ => [p]
  | unix_Mount s t _ _ _ => [s; t]
  | _ => []
  end.

(** ** Computations

    A computation reads the trace of the calls made so far and returns
    its result with the extended trace. *)
Definition M (A : Type) : Type := trace -> A * trace.

Definition ret {A : Type} (a : A) : M A := fun t => (a, t).

Definition bind {A B : Type} (m : M A) (k : A -> M B) : M B :=
  fun t => let '(a, t') := m t in k a t'.

Notation "x <- m ;; k" := (bind m (fun x => k))
  (at level 61, m at next level, right associativity).
Notation "m ;; k" := (bind m (fun _ => k))
  (at level 61, right associativity).

(** [if err := m; err != nil { return e }], followed by [k]. *)
Notation "'try' m 'catch' err => e ;; k" :=
  (bind m (fun r => match r with Some err => ret (Some e) | None => k end))
  (at level 61, m at next level, err name, e at next level,
   right associativity).

(** A sample of the two functions of [path/filepath] for the examples:
    it agrees with them on clean absolute paths of at least two
    elements. *)
Definition sampleJoin (a b : string) : string := a +++ "/" +++ b.

Fixpoint has_slash (s : string) : bool :=
  match s with
  | EmptyString => false
  | String c r => Ascii.eqb c "/" || has_slash r
  end.

Fixpoint sampleDir (s : string) : string :=
  match s with
  | EmptyString => ""
  | String c r => if has_slash r then String c (sampleDir r) else ""
  end.

(** Sample systems for the examples: one that fails, with [err], exactly
    the calls [p] selects. *)
Definition failing (p : Call -> bool) (err : error) : System :=
  fun _ c => if p c then Some err else None.

Definition is_stat (c : Call) : bool :=
  match c with os_Stat _ => true | _ => false end.

Definition ENOENT : error := OSError "no such file or directory" true.
Definition EACCES : error := OSError "permission denied" false.
Definition EPERM : error := OSError "operation not permitted" false.

(** Every call succeeds. *)
Definition sysOK : System := failing (fun _ => false) EPERM.

(** There is no [lower]. *)
Definition sysNoLower : System := failing is_stat ENOENT.

(** [lower] cannot be examined. *)
Definition sysDenied : System := failing is_stat EACCES.

(** A sample configuration and state path for the examples. *)
Definition sampleMount : specs.Mount :=
  {| specs.Destination := "/var/lib/data"; specs.Type_ := "tmpfs";
     specs.Source := "tmpfs"; specs.Options := ["nosuid"; "size=10%"] |}.

Definition sampleProc : specs.Mount :=
  {| specs.Destination := "/var/lib/proc"; specs.Type_ := "proc";
     specs.Source := "proc"; specs.Options := ["ro"; "defaults"] |}.

Definition sampleRuntime : Runtime :=
  {| Mounts := [sampleMount; sampleProc];
     Mkdir := ["/var/log/app"];
     Interfaces :=
       [ {| Name := "dummy0"; Add := "dummy"; Peer := ""; CreateInRoot := false |};
         {| Name := "veth0"; Add := "veth"; Peer := ""; CreateInRoot := false |};
         {| Name := "eth1"; Add := ""; Peer := ""; CreateInRoot := false |} ];
     BindNS := {| Cgroup := ""; Ipc := ""; Mnt := ""; Net := "/run/netns/c1";
                  Pid := ""; User := ""; Uts := "" |} |}.

Definition samplePath : string := "/containers/c1".

(** The mount of [proc] fails. *)
Definition sysNoProc : System :=
  failing (fun c => match c with
                    | unix_Mount source _ _ _ _ => String.eqb source "proc"
                    | _ => false
                    end) EPERM.

(** The option list without the token [defaults]. *)
Definition removeDefaults (options : list string) : list string :=
  filter (fun o => negb (String.eqb o "defaults")) options.

(** The two strategies of the preparer and of the teardown. *)
Inductive strategy := ReadOnly | Writable.

Section Program.

(** [filepath.Join] on two elements and [filepath.Dir]. *)
Variable Join : string -> string -> string.
Variable Dir : string -> string.

(** The operating system the program runs on. *)
Variable sys : System.

(** A call: its answer is read off the system, and it is recorded. *)
Definition call (c : Call) : M (option error) :=
  fun t => (sys t c, t ++ [c]).

(** *** prepareFilesystem *)

(** The body of [for _, mount := range runtime.Mounts].  The flag goes
    to the mount as [uintptr(opts)], which is [opts] itself: it is never
    negative ([parseMountOptions_range]). *)
Definition mountOne (mount : specs.Mount) : M (option error) :=
  let mode := mode0755 in
  try call (os_MkdirAll (specs.Destination mount) mode)
  catch err => (Errorf ("Cannot create directory for mount destination "
                        +++ specs.Destination mount +++ ": " +++ Error err)) ;;
  let '(opts, data) := parseMountOptions (specs.Options mount) in
  try call (unix_Mount (specs.Source mount) (specs.Destination mount)
              (specs.Type_ mount) opts data)
  catch err => (Errorf ("Failed to mount " +++ specs.Source mount
                        +++ ": " +++ Error err)) ;;
  ret None.

(** The loop over the mounts; a [return] in its body leaves the
    function, which the caller of [rangeMounts] passes on. *)
Fixpoint rangeMounts (mounts : list specs.Mount) : M (option error) :=
  match mounts with
  | [] => ret None
  | mount :: rest =>
      try mountOne mount catch err => err ;;
      rangeMounts rest
  end.

(** The loop [for _, dir := range runtime.Mkdir]. *)
Fixpoint rangeMkdir (dirs : list string) : M (option error) :=
  match dirs with
  | [] => ret None
  | dir :: rest =>
      let mode := mode0755 in
      try call (os_MkdirAll dir mode)
      catch err => (Errorf ("Cannot create directory " +++ dir
                            +++ ": " +++ Error err)) ;;
      rangeMkdir rest
  end.

Definition prepareRO (path : string) : M (option error) :=
  let rootfs := Join path "rootfs" in
  try call (unix_Mount rootfs rootfs "" unix.MS_BIND "") catch err => err ;;
  ret None.

Definition prepareRW (path : string) : M (option error) :=
  let tmp := Join path "tmp" in
  try call (unix_Mount "tmpfs" tmp "tmpfs" 0 "size=10%") catch err => err ;;
  try call (unix_Mount "" tmp "" (Z.lor unix.MS_REMOUNT unix.MS_PRIVATE) "")
  catch err => err ;;
  let upper := Join tmp "upper" in
  try call (os_Mkdir upper mode0755) catch err => err ;;
  let work := Join tmp "work" in
  try call (os_Mkdir work mode0755) catch err => err ;;
  let lower := Join path "lower" in
  let rootfs := Join path "rootfs" in
  let opt := "lowerdir=" +++ lower +++ ",upperdir=" +++ upper
             +++ ",workdir=" +++ work in
  try call (unix_Mount "overlay" rootfs "overlay" 0 opt) catch err => err ;;
  ret None.

(** The probe of [lower] at the end of [prepareFilesystem]. *)
Definition prepareProbe (path : string) : M (option error) :=
  r <- call (os_Stat (Join path "lower")) ;;
  match r with
  | Some err => if IsNotExist err then prepareRO path else ret (Some err)
  | None => prepareRW path
  end.

Definition prepareFilesystem (path : string) (runtime : Runtime)
  : M (option error) :=
  try rangeMounts (Mounts runtime) catch err => err ;;
  try rangeMkdir (Mkdir runtime) catch err => err ;;
  prepareProbe path.

(** *** bindNS *)

Definition bindNS (ns : string) (path : string) (pid : Z) : M (option error) :=
  if String.eqb path "" then ret None
  else
    let dir := Dir path in
    try call (os_MkdirAll dir mode0755)
    catch err => (Errorf ("Cannot create leading directories " +++ dir
                          +++ " for bind mount destination: " +++ Error err)) ;;
    try call (os_Create path)
    catch err => (Errorf ("Cannot create a mount point for namespace bind at "
                          +++ path +++ ": " +++ Error err)) ;;
    try call (File_Close path) catch err => err ;;
    try call (unix_Mount ("/proc/" +++ itoa pid +++ "/ns/" +++ ns) path ""
                unix.MS_BIND "")
    catch err => (Errorf ("Failed to bind " +++ ns +++ " namespace at "
                          +++ path +++ ": " +++ Error err)) ;;
    ret None.

(** *** prepareProcess *)

(** The assignment [iface.Add = "veth"] on the loop's copy. *)
Definition withAdd (iface : Interface) (add : string) : Interface :=
  {| Name := Name iface; Add := add; Peer := Peer iface;
     CreateInRoot := CreateInRoot iface |}.

(** [if move { ... }] at the end of the loop body. *)
Definition moveLink (pid : Z) (iface : Interface) (link : netlink.Link)
    (move : bool) : M (option error) :=
  if move then
    try call (netlink_LinkSetNsPid link pid)
    catch err => (Errorf ("Cannot move interface " +++ Name iface
                          +++ " into namespace: " +++ Error err)) ;;
    call (Fprintf_Stderr ("Moved interface " +++ Name iface +++ " to pid "
                          +++ itoa pid +++ newline)) ;;
    ret None
  else ret None.

(** The [switch iface.Add]: the link to add, or the error returned. *)
Definition linkToAdd (iface : Interface) (ns : option Z)
  : error + netlink.Link :=
  if String.eqb (Add iface) "veth" then
    if String.eqb (Peer iface) "" then
      inl (Errorf ("Creating a veth pair " +++ Name iface
                   +++ " requires a peer to be set"))
    else
      let la := {| netlink.Name := Name iface; netlink.Namespace := ns |} in
      inr (netlink.Veth la (Peer iface))
  else
    let la := {| netlink.Name := Name iface; netlink.Namespace := ns |} in
    inr (netlink.GenericLink la (Add iface)).

(** The body of [for _, iface := range runtime.Interfaces]. *)
Definition provision (pid : Z) (iface : Interface) : M (option error) :=
  if String.eqb (Name iface) "" then
    ret (Some (Errorf "Interface requires a name"))
  else
    let ns := Some pid in
    let move := false in
    let iface :=
      if negb (String.eqb (Peer iface) "") && String.eqb (Add iface) ""
      then withAdd iface "veth" else iface in
    let '(ns, move) :=
      if CreateInRoot iface || String.eqb (Add iface) "veth"
      then (None, true) else (ns, move) in
    if negb (String.eqb (Add iface) "") then
      match linkToAdd iface ns with
      | inl err => ret (Some err)
      | inr link =>
          try call (netlink_LinkAdd link)
          catch err => (Errorf ("Link add " +++ Name iface +++ " of type "
                                +++ Add iface +++ " failed: " +++ Error err)) ;;
          call (Fprintf_Stderr ("Created interface " +++ Name iface
                                +++ " type " +++ Add iface +++ newline)) ;;
          moveLink pid iface link move
      end
    else
      try call (netlink_LinkByName (Name iface))
      catch err => (Errorf ("Cannot find interface " +++ Name iface
                            +++ ": " +++ Error err)) ;;
      let link := netlink.Existing (Name iface) in
      let move := true in
      moveLink pid iface link move.

Fixpoint rangeInterfaces (pid : Z) (ifaces : list Interface)
  : M (option error) :=
  match ifaces with
  | [] => ret None
  | iface :: rest =>
      try provision pid iface catch err => err ;;
      rangeInterfaces pid rest
  end.

(** The slice [binds]. *)
Definition binds (runtime : Runtime) : list (string * string) :=
  [ ("cgroup", Cgroup (BindNS runtime));
    ("ipc", Ipc (BindNS runtime));
    ("mnt", Mnt (BindNS runtime));
    ("net", Net (BindNS runtime));
    ("pid", Pid (BindNS runtime));
    ("user", User (BindNS runtime));
    ("uts", Uts (BindNS runtime)) ].

Fixpoint rangeBinds (bs : list (string * string)) (pid : Z)
  : M (option error) :=
  match bs with
  | [] => ret None
  | (ns, path) :: rest =>
      try bindNS ns path pid catch err => err ;;
      rangeBinds rest pid
  end.

Definition prepareProcess (pid : Z) (runtime : Runtime) : M (option error) :=
  try rangeInterfaces pid (Interfaces runtime) catch err => err ;;
  try rangeBinds (binds runtime) pid catch err => err ;;
  ret None.

(** *** cleanup *)

Definition cleanupRO (path : string) : M unit :=
  let rootfs := Join path "rootfs" in
  call (unix_Unmount rootfs 0) ;;
  ret tt.

Definition cleanupRW (path : string) : M unit :=
  let rootfs := Join path "rootfs" in
  call (os_RemoveAll rootfs) ;;
  call (unix_Unmount rootfs 0) ;;
  let tmp := Join path "tmp" in
  call (os_RemoveAll tmp) ;;
  call (unix_Unmount tmp 0) ;;
  ret tt.

Definition cleanup (path : string) : M unit :=
  r <- call (os_Stat (Join path "lower")) ;;
  match r with
  | Some err => cleanupRO path
  | None => cleanupRW path
  end.

(** *** Notions the properties are stated with *)

(** The calls [cs] in order, up to the first one that fails, whose error
    is the result. *)
Fixpoint attempt (cs : list Call) : M (option error) :=
  match cs with
  | [] => ret None
  | c :: rest => try call c catch err => err ;; attempt rest
  end.

Definition probeCall (path : string) : Call := os_Stat (Join path "lower").

Definition prepareWith (s : strategy) (path : string) : M (option error) :=
  match s with
  | ReadOnly => prepareRO path
  | Writable => prepareRW path
  end.

Definition cleanupWith (s : strategy) (path : string) : M unit :=
  match s with
  | ReadOnly => cleanupRO path
  | Writable => cleanupRW path
  end.

(** [prepareFilesystem], once the mounts and directories of the
    configuration are done and the calls [t] have been made, selects
    the strategy [s]: it probes and goes on as the strategy does. *)
Definition prepare_selects (path : string) (t : trace) (s : strategy) : Prop :=
  prepareProbe path t = prepareWith s path (t ++ [probeCall path]).

(** [cleanup] selects the teardown [s]. *)
Definition cleanup_selects (path : string) (t : trace) (s : strategy) : Prop :=
  cleanup path t = cleanupWith s path (t ++ [probeCall path]).

(** The steps of the writable strategy. *)
Definition rwSteps (path : string) : list Call :=
  let tmp := Join path "tmp" in
  [ unix_Mount "tmpfs" tmp "tmpfs" 0 "size=10%";
    unix_Mount "" tmp "" (Z.lor unix.MS_REMOUNT unix.MS_PRIVATE) "";
    os_Mkdir (Join tmp "upper") mode0755;
    os_Mkdir (Join tmp "work") mode0755;
    unix_Mount "overlay" (Join path "rootfs") "overlay" 0
      ("lowerdir=" +++ Join path "lower" +++ ",upperdir="
       +++ Join tmp "upper" +++ ",workdir=" +++ Join tmp "work") ].

(** The self-bind of the read-only strategy. *)
Definition roMount (path : string) : Call :=
  unix_Mount (Join path "rootfs") (Join path "rootfs") "" unix.MS_BIND "".

(** The two calls a mount of the configuration takes. *)
Definition mkdirCall (mount : specs.Mount) : Call :=
  os_MkdirAll (specs.Destination mount) mode0755.

Definition mountCall (mount : specs.Mount) : Call :=
  unix_Mount (specs.Source mount) (specs.Destination mount)
    (specs.Type_ mount) (fst (parseMountOptions (specs.Options mount)))
    (snd (parseMountOptions (specs.Options mount))).

Definition mountCalls (mount : specs.Mount) : list Call :=
  [mkdirCall mount; mountCall mount].

(** The kind of link an interface is created as, after [peer] without
    [add] has been read as a veth. *)
Definition effectiveAdd (iface : Interface) : string :=
  if negb (String.eqb (Peer iface) "") && String.eqb (Add iface) ""
  then "veth" else Add iface.

(** From the trace [t] to the trace [t'], calls were added, and all of
    them satisfy [P]. *)
Definition only (P : Call -> bool) (t t' : trace) : Prop :=
  exists ext, t' = t ++ ext /\ forallb P ext = true.

(** A call of the link layer or a message: not one on the file system. *)
Definition not_fs (c : Call) : bool := negb (is_fs c).

(** The computation [m] only ever adds calls that satisfy [P]. *)
Definition emits {A : Type} (P : Call -> bool) (m : M A) : Prop :=
  forall t, only P t (snd (m t)).


(** *** getRuntimeConfig *)

(** [ioutil.ReadFile]: the content of a file, or an error; and
    [json.Unmarshal] of a content into the zero value of [Runtime]. *)
Variable ReadFile : string -> string + error.
Variable Unmarshal : string -> Runtime + error.

(** The zero value of [Runtime], [var runtime Runtime]. *)
Definition zeroRuntime : Runtime :=
  {| Mounts := []; Mkdir := []; Interfaces := [];
     BindNS := {| Cgroup := ""; Ipc := ""; Mnt := ""; Net := "";
                  Pid := ""; User := ""; Uts := "" |} |}.

(** What [getRuntimeConfig] ends with: it returns a configuration, or
    [log.Fatalf] ends the program with a message. *)
Inductive loaded :=
| Returned (runtime : Runtime)
| Fatalf (msg : string).

Definition getRuntimeConfig (path : string) : loaded :=
  let runtime := zeroRuntime in
  match ReadFile (Join path "runtime.json") with
  | inr err =>
      if IsNotExist err then Returned runtime
      else Fatalf ("Cannot read runtime config: " +++ Error err)
  | inl conf =>
      match Unmarshal conf with
      | inr err => Fatalf ("Cannot parse runtime config: " +++ Error err)
      | inl runtime => Returned runtime
      end
  end.

(** *** Further notions *)

(** A token [parseMountOptions] passes on as data: one that is not in
    the table, or is in it with the flag 0. *)
Definition isData (o : string) : bool :=
  match lookup flags o with
  | Some f => flag f =? 0
  | None => true
  end.

(** A token that clears bits of the flag. *)
Definition isClearing (o : string) : bool :=
  match lookup flags o with
  | Some f => negb (flag f =? 0) && clear f
  | None => false
  end.

(** The flag of a token in the table, 0 for the others. *)
Definition flagOf (o : string) : Z :=
  match lookup flags o with
  | Some f => flag f
  | None => 0
  end.

(** The call that creates a directory of the configuration. *)
Definition dirCall (dir : string) : Call := os_MkdirAll dir mode0755.

(** The calls of the mounts and directories of a configuration. *)
Definition configPlan (runtime : Runtime) : list Call :=
  flat_map mountCalls (Mounts runtime) ++ map dirCall (Mkdir runtime).



(** A mount onto [target]. *)
Definition mountsOn (target : string) (c : Call) : Prop :=
  exists source fstype fl data, c = unix_Mount source target fstype fl data.

(** The calls a preparation makes: none that unmounts or removes. *)
Definition no_teardown (c : Call) : bool :=
  negb (is_unmount c || is_remove c).

(** The calls [prepareFilesystem] can make. *)
Definition prepares (c : Call) : bool :=
  match c with
  | os_MkdirAll _ _ | os_Mkdir _ _ | os_Stat _ | unix_Mount _ _ _ _ _ => true
  | _ => false
  end.

(** The name and the namespace a link is created with. *)
Definition linkName (link : netlink.Link) : string :=
  match link with
  | netlink.Veth la _ | netlink.GenericLink la _ => netlink.Name la
  | netlink.Existing name => name
  end.

Definition linkNamespace (link : netlink.Link) : option Z :=
  match link with
  | netlink.Veth la _ | netlink.GenericLink la _ => netlink.Namespace la
  | netlink.Existing _ => None
  end.

(** The name of the link a call puts into the namespace of [pid]: a link
    created there, or a link moved there. *)
Definition placedBy (pid : Z) (c : Call) : option string :=
  match c with
  | netlink_LinkAdd link =>
      match linkNamespace link with
      | Some p => if p =? pid then Some (linkName link) else None
      | None => None
      end
  | netlink_LinkSetNsPid link p =>
      if p =? pid then Some (linkName link) else None
  | _ => None
  end.

Fixpoint placed (pid : Z) (cs : list Call) : list string :=
  match cs with
  | [] => []
  | c :: rest =>
      match placedBy pid c with
      | Some name => name :: placed pid rest
      | None => placed pid rest
      end
  end.

(** The calls [cs], made after the trace [t], that satisfy [P] all
    succeeded. *)
Fixpoint succeeded (P : Call -> bool) (t : trace) (cs : list Call) : Prop :=
  match cs with
  | [] => True
  | c :: rest => (P c = true -> sys t c = None) /\ succeeded P (t ++ [c]) rest
  end.

Definition is_netlink (c : Call) : bool :=
  match c with
  | netlink_LinkAdd _ | netlink_LinkByName _ | netlink_LinkSetNsPid _ _ => true
  | _ => false
  end.

(** * Properties *)

(** ** The mount option translator *)

Example parse_ro_noexec_nodev :
  parseMountOptions ["ro"; "noexec"; "nodev"]
  = (Z.lor unix.MS_RDONLY (Z.lor unix.MS_NOEXEC unix.MS_NODEV), "").
Proof. reflexivity. Qed.

Example parse_rw_data : parseMountOptions ["rw"; "foo=bar"] = (0, "foo=bar").
Proof. reflexivity. Qed.

Example parse_size : parseMountOptions ["nosuid"; "size=10%"; "mode=0755"]
  = (unix.MS_NOSUID, "size=10%,mode=0755").
Proof. reflexivity. Qed.

Lemma parseLoop_app options o acc :
  parseLoop (options ++ [o]) acc = parseStep (parseLoop options acc) o.
Proof. unfold parseLoop. now rewrite fold_left_app. Qed.

Lemma parseMountOptions_flag options :
  fst (parseMountOptions options) = fst (parseLoop options (0, [])).
Proof.
  unfold parseMountOptions. now destruct (parseLoop options (0, [])).
Qed.

(** The flag a token leaves depends on the flag before it only. *)
Lemma parseStep_flag fl data data' o :
  fst (parseStep (fl, data) o) = fst (parseStep (fl, data') o).
Proof.
  unfold parseStep. destruct (lookup flags o) as [f|]; [|reflexivity].
  destruct (negb (flag f =? 0)); [|reflexivity].
  now destruct (clear f).
Qed.

Lemma parseStep_defaults fl data :
  parseStep (fl, data) "defaults" = (fl, data ++ ["defaults"]).
Proof. reflexivity. Qed.

(** The flag half of the translation does ignore [defaults]. *)
Lemma parseLoop_flag_defaults options : forall fl data data',
  fst (parseLoop options (fl, data))
  = fst (parseLoop (removeDefaults options) (fl, data')).
Proof.
  induction options as [|o options IH]; intros fl data data'; [reflexivity|].
  unfold removeDefaults; cbn [filter parseLoop fold_left].
  destruct (String.eqb_spec o "defaults") as [->|_]; cbn [negb].
  - rewrite parseStep_defaults. apply IH.
  - cbn [fold_left].
    pose proof (parseStep_flag fl data data' o) as E.
    destruct (parseStep (fl, data) o) as [fl1 d1].
    destruct (parseStep (fl, data') o) as [fl2 d2].
    cbn in E; subst fl2. apply IH.
Qed.

Lemma parseMountOptions_flag_defaults options :
  fst (parseMountOptions options)
  = fst (parseMountOptions (removeDefaults options)).
Proof. rewrite !parseMountOptions_flag. apply parseLoop_flag_defaults. Qed.

(** [uintptr(opts)] changes nothing: the flag has no bit from 25 up. *)
Lemma flags_small o f : lookup flags o = Some f -> Z.shiftr (flag f) 25 = 0.
Proof.
  unfold flags; cbn [lookup].
  repeat (match goal with
          | |- (if ?b then _ else _) = _ -> _ => destruct b
          end; [intros [= <-]; reflexivity|]).
  discriminate.
Qed.

Lemma parseStep_small fl data o :
  Z.shiftr fl 25 = 0 -> Z.shiftr (fst (parseStep (fl, data) o)) 25 = 0.
Proof.
  intros H. unfold parseStep.
  destruct (lookup flags o) as [f|] eqn:E; [|exact H].
  destruct (negb (flag f =? 0)); [|exact H].
  apply flags_small in E.
  destruct (clear f); cbn [fst].
  - now rewrite Z.shiftr_ldiff, H, Z.ldiff_0_l.
  - now rewrite Z.shiftr_lor, H, E.
Qed.

Lemma parseLoop_small options : forall fl data,
  Z.shiftr fl 25 = 0 -> Z.shiftr (fst (parseLoop options (fl, data))) 25 = 0.
Proof.
  induction options as [|o options IH]; intros fl data H; [exact H|].
  cbn [parseLoop fold_left].
  pose proof (parseStep_small fl data o H) as H1.
  destruct (parseStep (fl, data) o) as [fl1 d1]. now apply IH.
Qed.

(** X2: The flag is never negative and is below 2^25, so the conversion
    [uintptr(opts)] of [prepareFilesystem] loses nothing. *)
Lemma parseMountOptions_range options :
  0 <= fst (parseMountOptions options) < 2 ^ 25.
Proof.
  rewrite parseMountOptions_flag.
  pose proof (parseLoop_small options 0 [] eq_refl) as H.
  apply Z.shiftr_eq_0_iff in H.
  destruct H as [->|[Hpos Hlog]]; [lia|].
  split; [lia|]. apply Z.log2_lt_pow2; lia.
Qed.

Lemma land_lor_same a b : Z.land (Z.lor a b) b = b.
Proof.
  apply Z.bits_inj'; intros n _.
  rewrite Z.land_spec, Z.lor_spec.
  destruct (Z.testbit a n), (Z.testbit b n); reflexivity.
Qed.

Lemma land_ldiff_same a b : Z.land (Z.ldiff a b) b = 0.
Proof.
  apply Z.bits_inj'; intros n Hn.
  rewrite Z.land_spec, Z.ldiff_spec, Z.bits_0.
  destruct (Z.testbit a n), (Z.testbit b n); reflexivity.
Qed.

(** C2: the token [defaults] is in the table with the flag 0, and the test
    [f.flag != 0] sends such a token to the data: translating
    [ro,defaults] returns the data [defaults], where translating the list
    without [defaults] returns the empty data.  The flags are the same. *)
Theorem parseMountOptions_defaults_is_data :
  parseMountOptions ["ro"; "defaults"] = (unix.MS_RDONLY, "defaults")
  /\ parseMountOptions (removeDefaults ["ro"; "defaults"]) = (unix.MS_RDONLY, "")
  /\ parseMountOptions ["defaults"] = (0, "defaults")
  /\ lookup flags "defaults" = Some {| clear := false; flag := 0 |}.
Proof. repeat split; reflexivity. Qed.

(** What one token does to one bit of the flag: a token whose flag has
    the bit sets it or clears it, any other token leaves it. *)
Lemma parseStep_bit fl data o n :
  Z.testbit (fst (parseStep (fl, data) o)) n
  = if Z.testbit (flagOf o) n then negb (isClearing o) else Z.testbit fl n.
Proof.
  unfold parseStep, flagOf, isClearing.
  destruct (lookup flags o) as [f|]; [|now rewrite Z.bits_0].
  destruct (flag f =? 0) eqn:E0; cbn [negb andb].
  - apply Z.eqb_eq in E0. now rewrite E0, Z.bits_0.
  - destruct (clear f); cbn [fst negb].
    + rewrite Z.ldiff_spec. destruct (Z.testbit (flag f) n);
        [apply andb_false_r|apply andb_true_r].
    + rewrite Z.lor_spec. destruct (Z.testbit (flag f) n);
        [apply orb_true_r|apply orb_false_r].
Qed.

(** Tokens whose flags do not have a bit leave that bit as it is. *)
Lemma parseLoop_keeps_bit n options : forall fl data,
  (forall o, In o options -> Z.testbit (flagOf o) n = false) ->
  Z.testbit (fst (parseLoop options (fl, data))) n = Z.testbit fl n.
Proof.
  induction options as [|o options IH]; intros fl data H; [reflexivity|].
  cbn [parseLoop fold_left].
  pose proof (parseStep_bit fl data o n) as Hs.
  rewrite (H o (or_introl eq_refl)) in Hs.
  destruct (parseStep (fl, data) o) as [fl1 data1]. cbn [fst] in Hs.
  rewrite <- Hs. apply IH. intros o' Ho'. apply H. now right.
Qed.

(** C9: the tokens are processed in input order, each from the flag the
    tokens before it left, and for every bit of the flag the last token
    that has the bit decides it.  When the list is [before], then a token
    [o] of the table whose flag has the bit [n], then tokens [after]
    whose flags do not have that bit, the bit [n] of the result is clear
    when [o] clears and set when [o] sets, whatever [before] and [after]
    do to it and to the other bits; a bit that no token of a list has is
    clear.  After a last token of the table with a flag other than 0,
    all bits of that flag are as the token says.  So [ro,rw] leaves
    RDONLY clear and [rw,ro] leaves it set, and a later token on another
    bit does not undo an earlier one: [ro,nosuid] has both bits. *)
Theorem parseMountOptions_last_wins (before after : list string) (o : string)
    (f : flagEntry) (n : Z) :
  lookup flags o = Some f ->
  flag f <> 0 ->
  Z.testbit (flag f) n = true ->
  (forall o', In o' after -> Z.testbit (flagOf o') n = false) ->
  Z.testbit (fst (parseMountOptions (before ++ o :: after))) n
  = negb (clear f)
  /\ (forall options,
       (forall o', In o' options -> Z.testbit (flagOf o') n = false) ->
       Z.testbit (fst (parseMountOptions options)) n = false)
  /\ parseLoop (before ++ [o]) (0, []) = parseStep (parseLoop before (0, [])) o
  /\ Z.land (fst (parseMountOptions (before ++ [o]))) (flag f)
     = (if clear f then 0 else flag f)
  /\ Z.land (fst (parseMountOptions ["ro"; "rw"])) unix.MS_RDONLY = 0
  /\ Z.land (fst (parseMountOptions ["rw"; "ro"])) unix.MS_RDONLY
     = unix.MS_RDONLY
  /\ fst (parseMountOptions ["ro"; "nosuid"])
     = Z.lor unix.MS_RDONLY unix.MS_NOSUID.
Proof.
  intros Hf Hnz Hbit Hafter.
  split; [|split; [|split; [apply parseLoop_app|split;
                              [|repeat split; reflexivity]]]].
  - assert (A : parseLoop (before ++ o :: after) (0, [])
                 = parseLoop after (parseStep (parseLoop before (0, [])) o))
      by apply fold_left_app.
    rewrite parseMountOptions_flag, A.
    destruct (parseLoop before (0, [])) as [fl data].
    pose proof (parseStep_bit fl data o n) as Hs.
    unfold flagOf, isClearing in Hs. rewrite Hf, Hbit in Hs.
    apply Z.eqb_neq in Hnz. rewrite Hnz in Hs. cbn [negb andb] in Hs.
    destruct (parseStep (fl, data) o) as [fl1 data1]. cbn [fst] in Hs.
    rewrite <- Hs. now apply parseLoop_keeps_bit.
  - intros options Hnone. rewrite parseMountOptions_flag.
    rewrite (parseLoop_keeps_bit n options 0 [] Hnone). apply Z.bits_0.
  - rewrite parseMountOptions_flag, parseLoop_app.
    destruct (parseLoop before (0, [])) as [fl data].
    unfold parseStep. rewrite Hf.
    apply Z.eqb_neq in Hnz. rewrite Hnz. cbn [negb].
    destruct (clear f); cbn [fst].
    + apply land_ldiff_same.
    + apply land_lor_same.
Qed.

(** ** Running calls in order *)

Lemma attempt_cons c cs t :
  attempt (c :: cs) t
  = match sys t c with
    | Some err => (Some err, t ++ [c])
    | None => attempt cs (t ++ [c])
    end.
Proof. cbv [attempt bind call ret]. now destruct (sys t c). Qed.

Lemma attempt_app pre post : forall t,
  attempt (pre ++ post) t
  = match attempt pre t with
    | (Some err, t1) => (Some err, t1)
    | (None, t1) => attempt post t1
    end.
Proof.
  induction pre as [|c pre IH]; intros t; [reflexivity|].
  cbn [app]. rewrite !attempt_cons. destruct (sys t c); [reflexivity|apply IH].
Qed.

Lemma attempt_ok_trace cs : forall t t1,
  attempt cs t = (None, t1) -> t1 = t ++ cs.
Proof.
  induction cs as [|c cs IH]; intros t t1.
  - cbn. intros [= <-]. now rewrite app_nil_r.
  - rewrite attempt_cons. destruct (sys t c); [discriminate|].
    intros H. apply IH in H. now rewrite <- app_assoc in H.
Qed.

Lemma attempt_first_failure pre c post t err :
  attempt pre t = (None, t ++ pre) ->
  sys (t ++ pre) c = Some err ->
  attempt (pre ++ c :: post) t = (Some err, t ++ pre ++ [c]).
Proof.
  intros Hpre Hc. rewrite attempt_app, Hpre, attempt_cons, Hc.
  now rewrite app_assoc.
Qed.

Lemma attempt_all_ok cs : forall t,
  (forall pre c post, cs = pre ++ c :: post -> sys (t ++ pre) c = None) ->
  attempt cs t = (None, t ++ cs).
Proof.
  induction cs as [|c cs IH]; intros t H.
  - cbn. now rewrite app_nil_r.
  - rewrite attempt_cons.
    pose proof (H [] c cs eq_refl) as H0. rewrite app_nil_r in H0. rewrite H0.
    rewrite IH.
    + now rewrite <- app_assoc.
    + intros pre c' post ->. rewrite <- app_assoc.
      now apply (H (c :: pre) c' post).
Qed.

Lemma attempt_extends cs : forall t, exists ext, snd (attempt cs t) = t ++ ext.
Proof.
  induction cs as [|c cs IH]; intros t.
  - exists []. cbn. now rewrite app_nil_r.
  - rewrite attempt_cons. destruct (sys t c).
    + now exists [c].
    + destruct (IH (t ++ [c])) as [ext ->]. exists (c :: ext).
      now rewrite <- app_assoc.
Qed.

(** A run of [attempt] makes its first call. *)
Lemma attempt_first_call c cs t :
  exists ext, snd (attempt (c :: cs) t) = t ++ c :: ext.
Proof.
  rewrite attempt_cons. destruct (sys t c) as [err|].
  - now exists [].
  - destruct (attempt_extends cs (t ++ [c])) as [ext ->]. exists ext.
    now rewrite <- app_assoc.
Qed.

(** ** The filesystem preparer *)

(** After the mounts and directories of the configuration,
    [prepareFilesystem] is its probe. *)
Lemma prepareFilesystem_probe path runtime t t1 t2 :
  rangeMounts (Mounts runtime) t = (None, t1) ->
  rangeMkdir (Mkdir runtime) t1 = (None, t2) ->
  prepareFilesystem path runtime t = prepareProbe path t2.
Proof.
  intros H1 H2. unfold prepareFilesystem, bind. now rewrite H1, H2.
Qed.

Lemma prepareRW_steps path t : prepareRW path t = attempt (rwSteps path) t.
Proof. reflexivity. Qed.

Lemma prepareRO_run path t :
  prepareRO path t = (sys t (roMount path), t ++ [roMount path]).
Proof.
  cbv [prepareRO bind call ret roMount].
  now destruct (sys t (unix_Mount _ _ _ _ _)).
Qed.

Lemma prepareProbe_run path t :
  prepareProbe path t
  = match sys t (probeCall path) with
    | Some err =>
        if IsNotExist err then prepareRO path (t ++ [probeCall path])
        else (Some err, t ++ [probeCall path])
    | None => prepareRW path (t ++ [probeCall path])
    end.
Proof.
  cbv [prepareProbe bind call probeCall].
  destruct (sys t (os_Stat _)) as [err|]; [|reflexivity].
  now destruct (IsNotExist err).
Qed.

(** C3: with a [lower] in the state path, and the mounts and directories
    of the configuration done, [prepareFilesystem] runs the steps of the
    writable strategy in order (tmpfs on [tmp] with the data size=10%,
    remount of [tmp] with REMOUNT and PRIVATE, [tmp/upper] and [tmp/work]
    with mode 0755, the overlay on [rootfs] with lowerdir, upperdir and
    workdir) up to the first that fails: when all succeed the calls
    made are the five and the result is success; when one fails after
    the ones before it succeeded, its error is the result and no later
    step is made. *)
Theorem prepare_writable_sequence (path : string) (runtime : Runtime)
    (t t1 t2 : trace) :
  rangeMounts (Mounts runtime) t = (None, t1) ->
  rangeMkdir (Mkdir runtime) t1 = (None, t2) ->
  sys t2 (probeCall path) = None ->
  let t3 := t2 ++ [probeCall path] in
  prepareFilesystem path runtime t = attempt (rwSteps path) t3
  /\ rwSteps path
     = [ unix_Mount "tmpfs" (Join path "tmp") "tmpfs" 0 "size=10%";
         unix_Mount "" (Join path "tmp") ""
           (Z.lor unix.MS_REMOUNT unix.MS_PRIVATE) "";
         os_Mkdir (Join (Join path "tmp") "upper") 493;
         os_Mkdir (Join (Join path "tmp") "work") 493;
         unix_Mount "overlay" (Join path "rootfs") "overlay" 0
           ("lowerdir=" +++ Join path "lower" +++ ",upperdir="
            +++ Join (Join path "tmp") "upper" +++ ",workdir="
            +++ Join (Join path "tmp") "work") ]
  /\ ((forall pre c post, rwSteps path = pre ++ c :: post ->
         sys (t3 ++ pre) c = None) ->
      prepareFilesystem path runtime t = (None, t3 ++ rwSteps path))
  /\ (forall pre c post err, rwSteps path = pre ++ c :: post ->
        attempt pre t3 = (None, t3 ++ pre) ->
        sys (t3 ++ pre) c = Some err ->
        prepareFilesystem path runtime t = (Some err, t3 ++ pre ++ [c])).
Proof.
  intros H1 H2 Hstat t3.
  assert (E : prepareFilesystem path runtime t = attempt (rwSteps path) t3).
  { rewrite (prepareFilesystem_probe path runtime t t1 t2 H1 H2).
    rewrite prepareProbe_run, Hstat. apply prepareRW_steps. }
  split; [exact E|]. split; [reflexivity|]. split.
  - intros Hok. rewrite E. now apply attempt_all_ok.
  - intros pre c post err Hsplit Hpre Hc. rewrite E, Hsplit.
    now apply attempt_first_failure.
Qed.

(** C4: without a [lower] in the state path, and the mounts and
    directories of the configuration done, [prepareFilesystem] makes two
    more calls, the probe and the bind mount of [rootfs] onto itself with
    the flag BIND, whose answer is the result: one mount, no directory
    or file created, and no path named but [lower] and [rootfs]. *)
Theorem prepare_readonly_single_mount (path : string) (runtime : Runtime)
    (t t1 t2 : trace) (err : error) :
  rangeMounts (Mounts runtime) t = (None, t1) ->
  rangeMkdir (Mkdir runtime) t1 = (None, t2) ->
  sys t2 (probeCall path) = Some err ->
  IsNotExist err = true ->
  let added := [probeCall path; roMount path] in
  prepareFilesystem path runtime t
  = (sys (t2 ++ [probeCall path]) (roMount path), t2 ++ added)
  /\ roMount path
     = unix_Mount (Join path "rootfs") (Join path "rootfs") "" unix.MS_BIND ""
  /\ filter is_mount added = [roMount path]
  /\ filter is_create added = []
  /\ (forall c p, In c added -> In p (paths_of c) ->
       p = Join path "lower" \/ p = Join path "rootfs").
Proof.
  intros H1 H2 Hstat Hne added.
  split; [|split; [reflexivity|split; [reflexivity|split; [reflexivity|]]]].
  - rewrite (prepareFilesystem_probe path runtime t t1 t2 H1 H2).
    rewrite prepareProbe_run, Hstat, Hne, prepareRO_run.
    unfold added. now rewrite <- app_assoc.
  - intros c p [<-|[<-|[]]] Hp; cbn in Hp.
    + destruct Hp as [<-|[]]. now left.
    + destruct Hp as [<-|[<-|[]]]; now right.
Qed.

(** ** The teardown *)

(** The calls of the two teardowns. *)
Lemma cleanupRO_run path t :
  cleanupRO path t = (tt, t ++ [unix_Unmount (Join path "rootfs") 0]).
Proof. reflexivity. Qed.

Lemma cleanupRW_run path t :
  cleanupRW path t
  = (tt, t ++ [ os_RemoveAll (Join path "rootfs");
                unix_Unmount (Join path "rootfs") 0;
                os_RemoveAll (Join path "tmp");
                unix_Unmount (Join path "tmp") 0 ]).
Proof.
  cbv [cleanupRW bind call ret]. now rewrite <- !app_assoc.
Qed.

Lemma cleanup_run path t :
  cleanup path t
  = match sys t (probeCall path) with
    | Some _ => cleanupRO path (t ++ [probeCall path])
    | None => cleanupRW path (t ++ [probeCall path])
    end.
Proof.
  cbv [cleanup bind call probeCall]. now destruct (sys t (os_Stat _)).
Qed.

(** C5: [cleanup] has no result to carry an error, and whatever the
    system answers to each call, it makes the probe and then, when the
    probe fails, the one unmount of [rootfs], and when it succeeds, the
    removal of [rootfs], the unmount of [rootfs], the removal of [tmp]
    and the unmount of [tmp], in that order. *)
Theorem cleanup_best_effort (path : string) (t : trace) :
  let teardown :=
    match sys t (probeCall path) with
    | Some _ => [ unix_Unmount (Join path "rootfs") 0 ]
    | None => [ os_RemoveAll (Join path "rootfs");
                unix_Unmount (Join path "rootfs") 0;
                os_RemoveAll (Join path "tmp");
                unix_Unmount (Join path "tmp") 0 ]
    end in
  cleanup path t = (tt, t ++ probeCall path :: teardown)
  /\ List.length (filter is_unmount teardown)
     = match sys t (probeCall path) with Some _ => 1 | None => 2 end%nat
  /\ List.length (filter is_remove teardown)
     = match sys t (probeCall path) with Some _ => 0 | None => 2 end%nat.
Proof.
  intros teardown. unfold teardown. rewrite cleanup_run.
  destruct (sys t (probeCall path)).
  - rewrite cleanupRO_run, <- app_assoc. now repeat split.
  - rewrite cleanupRW_run, <- app_assoc. now repeat split.
Qed.

(** ** The probe of the preparer and of the teardown *)

Lemma app_inv_nil (l ext : trace) : l = l ++ ext -> ext = [].
Proof.
  intros H. rewrite <- (app_nil_r l) in H at 1.
  now apply app_inv_head in H.
Qed.

Lemma cleanup_selects_Writable path t :
  cleanup_selects path t Writable <-> sys t (probeCall path) = None.
Proof.
  unfold cleanup_selects, cleanupWith. rewrite cleanup_run. split.
  - destruct (sys t (probeCall path)); [|reflexivity].
    rewrite cleanupRO_run, cleanupRW_run. intros [= H].
    apply app_inv_head in H. discriminate.
  - now intros ->.
Qed.

Lemma cleanup_selects_ReadOnly path t :
  cleanup_selects path t ReadOnly <-> sys t (probeCall path) <> None.
Proof.
  unfold cleanup_selects, cleanupWith. rewrite cleanup_run. split.
  - destruct (sys t (probeCall path)); [discriminate|].
    rewrite cleanupRO_run, cleanupRW_run. intros [= H].
    apply app_inv_head in H. discriminate.
  - destruct (sys t (probeCall path)); [reflexivity|congruence].
Qed.

Lemma prepareRO_not_prepareRW path t : prepareRO path t <> prepareRW path t.
Proof.
  intros H. apply (f_equal snd) in H.
  rewrite prepareRO_run, prepareRW_steps in H. cbn [snd] in H.
  destruct (attempt_first_call
              (unix_Mount "tmpfs" (Join path "tmp") "tmpfs" 0 "size=10%")
              (tl (rwSteps path)) t) as [ext E].
  change (_ :: tl (rwSteps path)) with (rwSteps path) in E.
  rewrite E in H. apply app_inv_head in H. discriminate.
Qed.

Lemma prepare_selects_Writable path t :
  prepare_selects path t Writable <-> sys t (probeCall path) = None.
Proof.
  unfold prepare_selects, prepareWith. rewrite prepareProbe_run. split.
  - destruct (sys t (probeCall path)) as [err|]; [|reflexivity].
    destruct (IsNotExist err); intros H.
    + now apply prepareRO_not_prepareRW in H.
    + apply (f_equal snd) in H. rewrite prepareRW_steps in H. cbn [snd] in H.
      destruct (attempt_first_call
                  (unix_Mount "tmpfs" (Join path "tmp") "tmpfs" 0 "size=10%")
                  (tl (rwSteps path)) (t ++ [probeCall path])) as [ext E].
      change (_ :: tl (rwSteps path)) with (rwSteps path) in E.
      rewrite E in H. apply app_inv_nil in H. discriminate.
  - now intros ->.
Qed.

Lemma prepare_selects_ReadOnly path t :
  prepare_selects path t ReadOnly
  <-> exists err, sys t (probeCall path) = Some err /\ IsNotExist err = true.
Proof.
  unfold prepare_selects, prepareWith. rewrite prepareProbe_run. split.
  - destruct (sys t (probeCall path)) as [err|].
    + destruct (IsNotExist err) eqn:Hne; intros H; [now exists err|].
      apply (f_equal snd) in H. rewrite prepareRO_run in H. cbn [snd] in H.
      apply app_inv_nil in H. discriminate.
    + intros H. symmetry in H. now apply prepareRO_not_prepareRW in H.
  - intros [err [-> ->]]. reflexivity.
Qed.

(** C1, as the program has it: the teardown and the preparer select the
    writable strategy in the same case, when the probe of [lower]
    succeeds.  The teardown selects the read-only strategy whenever the
    probe fails, with any error; the preparer selects it when the error
    of the probe is one of non-existence, and with any other error it
    selects no strategy and returns that error. *)
Theorem cleanup_probe_vs_prepare_probe (path : string) (t : trace) :
  (cleanup_selects path t Writable <-> prepare_selects path t Writable)
  /\ (cleanup_selects path t Writable <-> sys t (probeCall path) = None)
  /\ (cleanup_selects path t ReadOnly <-> sys t (probeCall path) <> None)
  /\ (prepare_selects path t ReadOnly
      <-> exists err, sys t (probeCall path) = Some err
                      /\ IsNotExist err = true)
  /\ (prepare_selects path t ReadOnly -> cleanup_selects path t ReadOnly)
  /\ (forall err, sys t (probeCall path) = Some err ->
       IsNotExist err = false ->
       prepareProbe path t = (Some err, t ++ [probeCall path])
       /\ forall s, ~ prepare_selects path t s).
Proof.
  split; [|split; [|split; [|split; [|split]]]].
  - now rewrite cleanup_selects_Writable, prepare_selects_Writable.
  - apply cleanup_selects_Writable.
  - apply cleanup_selects_ReadOnly.
  - apply prepare_selects_ReadOnly.
  - rewrite cleanup_selects_ReadOnly, prepare_selects_ReadOnly.
    intros [err [-> _]]. discriminate.
  - intros err Hstat Hne. split.
    + now rewrite prepareProbe_run, Hstat, Hne.
    + intros [|].
      * rewrite prepare_selects_ReadOnly. intros [err' [E Hne']].
        rewrite Hstat in E. injection E as <-. congruence.
      * rewrite prepare_selects_Writable. congruence.
Qed.

(** ** The mounts of the configuration *)

Lemma mountOne_run mount t :
  mountOne mount t
  = match sys t (mkdirCall mount) with
    | Some err =>
        (Some (Errorf ("Cannot create directory for mount destination "
                       +++ specs.Destination mount +++ ": " +++ Error err)),
         t ++ [mkdirCall mount])
    | None =>
        match sys (t ++ [mkdirCall mount]) (mountCall mount) with
        | Some err =>
            (Some (Errorf ("Failed to mount " +++ specs.Source mount
                           +++ ": " +++ Error err)),
             t ++ mountCalls mount)
        | None => (None, t ++ mountCalls mount)
        end
    end.
Proof.
  cbv [mountOne bind call ret mkdirCall mountCall mountCalls].
  destruct (sys t (os_MkdirAll _ _)); [reflexivity|].
  destruct (parseMountOptions (specs.Options mount)) as [opts data].
  cbn [fst snd].
  destruct (sys _ (unix_Mount _ _ _ _ _)); now rewrite <- app_assoc.
Qed.

Lemma rangeMounts_cons mount rest t :
  rangeMounts (mount :: rest) t
  = match mountOne mount t with
    | (Some err, t1) => (Some err, t1)
    | (None, t1) => rangeMounts rest t1
    end.
Proof.
  cbn [rangeMounts]. unfold bind at 1.
  now destruct (mountOne mount t) as [[err|] t1].
Qed.

Lemma rangeMounts_app pre post : forall t,
  rangeMounts (pre ++ post) t
  = match rangeMounts pre t with
    | (Some err, t1) => (Some err, t1)
    | (None, t1) => rangeMounts post t1
    end.
Proof.
  induction pre as [|m pre IH]; intros t; [reflexivity|].
  cbn [app]. rewrite !rangeMounts_cons.
  destruct (mountOne m t) as [[err|] t1]; [reflexivity|apply IH].
Qed.

(** The mounts all succeed exactly when their calls, in order, do. *)
Lemma rangeMounts_attempt mounts : forall t t1,
  attempt (flat_map mountCalls mounts) t = (None, t1) ->
  rangeMounts mounts t = (None, t1).
Proof.
  induction mounts as [|m mounts IH]; intros t t1; [easy|].
  cbn [flat_map mountCalls app]. rewrite !attempt_cons, rangeMounts_cons.
  rewrite mountOne_run.
  destruct (sys t (mkdirCall m)); [discriminate|].
  destruct (sys (t ++ [mkdirCall m]) (mountCall m)); [discriminate|].
  unfold mountCalls. rewrite <- app_assoc. apply IH.
Qed.

(** C6: [prepareFilesystem] takes the mounts in the order of the list,
    and for each one first creates its destination with [MkdirAll] and
    mode 0755, then mounts it with the translated options.  When the
    calls of the mounts before [m] succeeded and the creation of the
    destination of [m] fails, or the mount of [m] does, the result is an
    error naming the destination, or the source, of [m], and nothing is
    called after the failing call: no later mount, no directory of the
    configuration, no probe.  When the calls of all mounts succeed, they
    are the calls made, in order, and the preparation goes on from
    there. *)
Theorem prepare_mounts_in_order (path : string) (runtime : Runtime)
    (t : trace) :
  (forall pre m post t1 err,
     Mounts runtime = pre ++ m :: post ->
     attempt (flat_map mountCalls pre) t = (None, t1) ->
     sys t1 (os_MkdirAll (specs.Destination m) 493) = Some err ->
     prepareFilesystem path runtime t
     = (Some (Errorf ("Cannot create directory for mount destination "
                      +++ specs.Destination m +++ ": " +++ Error err)),
        t ++ flat_map mountCalls pre
          ++ [os_MkdirAll (specs.Destination m) 493]))
  /\ (forall pre m post t1 err,
       Mounts runtime = pre ++ m :: post ->
       attempt (flat_map mountCalls pre) t = (None, t1) ->
       sys t1 (os_MkdirAll (specs.Destination m) 493) = None ->
       sys (t1 ++ [os_MkdirAll (specs.Destination m) 493]) (mountCall m)
       = Some err ->
       prepareFilesystem path runtime t
       = (Some (Errorf ("Failed to mount " +++ specs.Source m
                        +++ ": " +++ Error err)),
          t ++ flat_map mountCalls pre
            ++ [os_MkdirAll (specs.Destination m) 493; mountCall m]))
  /\ (forall t1,
       attempt (flat_map mountCalls (Mounts runtime)) t = (None, t1) ->
       t1 = t ++ flat_map mountCalls (Mounts runtime)
       /\ prepareFilesystem path runtime t
          = (try rangeMkdir (Mkdir runtime) catch err => err ;;
             prepareProbe path) t1).
Proof.
  split; [|split].
  - intros pre m post t1 err Hsplit Hpre Hmk.
    pose proof (attempt_ok_trace _ _ _ Hpre) as Ht1.
    apply rangeMounts_attempt in Hpre.
    unfold prepareFilesystem, bind.
    rewrite Hsplit, rangeMounts_app, Hpre, rangeMounts_cons, mountOne_run.
    change (mkdirCall m) with (os_MkdirAll (specs.Destination m) 493).
    rewrite Hmk. cbn [ret]. now rewrite Ht1, <- app_assoc.
  - intros pre m post t1 err Hsplit Hpre Hmk Hmnt.
    pose proof (attempt_ok_trace _ _ _ Hpre) as Ht1.
    apply rangeMounts_attempt in Hpre.
    unfold prepareFilesystem, bind.
    rewrite Hsplit, rangeMounts_app, Hpre, rangeMounts_cons, mountOne_run.
    change (mkdirCall m) with (os_MkdirAll (specs.Destination m) 493).
    rewrite Hmk, Hmnt. cbn [ret]. now rewrite Ht1, <- app_assoc.
  - intros t1 Hall. split; [now apply attempt_ok_trace in Hall|].
    apply rangeMounts_attempt in Hall.
    unfold prepareFilesystem. unfold bind at 1. now rewrite Hall.
Qed.

(** ** The namespace binder *)

(** C7: with an empty host path [bindNS] returns success and calls
    nothing.  With another host path it creates the directory of the
    path with [MkdirAll] and mode 0755, creates the file, closes it, and
    bind-mounts [/proc/<pid>/ns/<kind>] onto it; it stops at the first
    of these calls that fails, with an error, and returns success when
    none fails. *)
Theorem bindNS_behaviour (ns path : string) (pid : Z) (t : trace) :
  path <> "" ->
  let mkdir := os_MkdirAll (Dir path) 493 in
  let create := os_Create path in
  let close := File_Close path in
  let mount := unix_Mount ("/proc/" +++ itoa pid +++ "/ns/" +++ ns) path ""
                 unix.MS_BIND "" in
  bindNS ns "" pid t = (None, t)
  /\ bindNS ns path pid t
     = match sys t mkdir with
       | Some err =>
           (Some (Errorf ("Cannot create leading directories " +++ Dir path
                          +++ " for bind mount destination: " +++ Error err)),
            t ++ [mkdir])
       | None =>
       match sys (t ++ [mkdir]) create with
       | Some err =>
           (Some (Errorf ("Cannot create a mount point for namespace bind at "
                          +++ path +++ ": " +++ Error err)),
            t ++ [mkdir; create])
       | None =>
       match sys (t ++ [mkdir; create]) close with
       | Some err => (Some err, t ++ [mkdir; create; close])
       | None =>
       match sys (t ++ [mkdir; create; close]) mount with
       | Some err =>
           (Some (Errorf ("Failed to bind " +++ ns +++ " namespace at "
                          +++ path +++ ": " +++ Error err)),
            t ++ [mkdir; create; close; mount])
       | None => (None, t ++ [mkdir; create; close; mount])
       end end end end.
Proof.
  intros Hpath mkdir create close mount. split; [reflexivity|].
  unfold bindNS. apply String.eqb_neq in Hpath. rewrite Hpath.
  cbv [bind call ret]. fold mkdir create close mount.
  change mode0755 with 493. fold mkdir.
  destruct (sys t mkdir); [reflexivity|].
  rewrite <- ?app_assoc; cbn [app].
  destruct (sys (t ++ [mkdir]) create); [now rewrite <- ?app_assoc|].
  rewrite <- ?app_assoc; cbn [app].
  destruct (sys (t ++ [mkdir; create]) close); [now rewrite <- ?app_assoc|].
  rewrite <- ?app_assoc; cbn [app].
  destruct (sys (t ++ [mkdir; create; close]) mount);
    now rewrite <- ?app_assoc.
Qed.

(** ** The interfaces and the order of the process preparation *)

Lemma rangeInterfaces_cons pid iface rest t :
  rangeInterfaces pid (iface :: rest) t
  = match provision pid iface t with
    | (Some err, t1) => (Some err, t1)
    | (None, t1) => rangeInterfaces pid rest t1
    end.
Proof.
  cbn [rangeInterfaces]. unfold bind at 1.
  now destruct (provision pid iface t) as [[err|] t1].
Qed.

Lemma rangeInterfaces_app pid pre post : forall t,
  rangeInterfaces pid (pre ++ post) t
  = match rangeInterfaces pid pre t with
    | (Some err, t1) => (Some err, t1)
    | (None, t1) => rangeInterfaces pid post t1
    end.
Proof.
  induction pre as [|i pre IH]; intros t; [reflexivity|].
  cbn [app]. rewrite !rangeInterfaces_cons.
  destruct (provision pid i t) as [[err|] t1]; [reflexivity|apply IH].
Qed.

Lemma prepareProcess_run pid runtime t :
  prepareProcess pid runtime t
  = match rangeInterfaces pid (Interfaces runtime) t with
    | (Some err, t1) => (Some err, t1)
    | (None, t1) =>
        (try rangeBinds (binds runtime) pid catch err => err ;; ret None) t1
    end.
Proof.
  unfold prepareProcess. unfold bind at 1.
  now destruct (rangeInterfaces pid (Interfaces runtime) t) as [[err|] t1].
Qed.

(** A veth without a peer is refused before any call. *)
Lemma provision_veth_without_peer pid iface t :
  effectiveAdd iface = "veth" ->
  Peer iface = "" ->
  provision pid iface t
  = (Some (Errorf (if String.eqb (Name iface) ""
                   then "Interface requires a name"
                   else "Creating a veth pair " +++ Name iface
                        +++ " requires a peer to be set")), t).
Proof.
  destruct iface as [name add peer inRoot]. unfold effectiveAdd.
  cbn [Name Add Peer CreateInRoot]. intros Hadd ->.
  cbn in Hadd. subst add.
  unfold provision. cbn [Name Add Peer CreateInRoot].
  destruct (String.eqb name ""); [reflexivity|].
  cbn. now destruct inRoot.
Qed.

(** C8: an interface whose kind is veth, declared or implied, and whose
    peer is empty is refused with an error and without any call.  In a
    list that holds it, [prepareProcess] always fails, and the calls it
    makes are the calls of the interfaces before it: no link is created
    for it, no later interface is processed, no namespace is bound. *)
Theorem veth_without_peer_fails_first (pid : Z) (runtime : Runtime)
    (pre : list Interface) (iface : Interface) (post : list Interface)
    (t : trace) :
  Interfaces runtime = pre ++ iface :: post ->
  effectiveAdd iface = "veth" ->
  Peer iface = "" ->
  (forall t1, exists err, provision pid iface t1 = (Some err, t1))
  /\ prepareProcess pid runtime t
     = (match fst (rangeInterfaces pid pre t) with
        | Some err => Some err
        | None =>
            Some (Errorf (if String.eqb (Name iface) ""
                          then "Interface requires a name"
                          else "Creating a veth pair " +++ Name iface
                               +++ " requires a peer to be set"))
        end,
        snd (rangeInterfaces pid pre t))
  /\ fst (prepareProcess pid runtime t) <> None.
Proof.
  intros Hsplit Hadd Hpeer.
  pose proof (provision_veth_without_peer pid iface) as Hprov.
  assert (E : prepareProcess pid runtime t
     = (match fst (rangeInterfaces pid pre t) with
        | Some err => Some err
        | None =>
            Some (Errorf (if String.eqb (Name iface) ""
                          then "Interface requires a name"
                          else "Creating a veth pair " +++ Name iface
                               +++ " requires a peer to be set"))
        end,
        snd (rangeInterfaces pid pre t))).
  { rewrite prepareProcess_run, Hsplit, rangeInterfaces_app.
    destruct (rangeInterfaces pid pre t) as [[err|] t1]; [reflexivity|].
    rewrite rangeInterfaces_cons. now rewrite (Hprov t1 Hadd Hpeer). }
  split; [|split; [exact E|]].
  - intros t1. eexists. now apply Hprov.
  - rewrite E. cbn [fst]. now destruct (fst (rangeInterfaces pid pre t)).
Qed.

Lemma emits_ret {A : Type} (P : Call -> bool) (a : A) : emits P (ret a).
Proof. intros t. exists []. now rewrite app_nil_r. Qed.

Lemma emits_call (P : Call -> bool) (c : Call) : P c = true -> emits P (call c).
Proof. intros H t. exists [c]. cbn. now rewrite H. Qed.

Lemma emits_bind {A B : Type} (P : Call -> bool) (m : M A) (k : A -> M B) :
  emits P m -> (forall a, emits P (k a)) -> emits P (bind m k).
Proof.
  intros Hm Hk t. unfold bind.
  destruct (Hm t) as [e1 [E1 F1]]. destruct (m t) as [a t1]. cbn [snd] in E1.
  destruct (Hk a t1) as [e2 [E2 F2]]. exists (e1 ++ e2).
  rewrite E2, E1, <- app_assoc, forallb_app, F1, F2. now split.
Qed.

Ltac emits_step :=
  first [ apply emits_ret
        | apply emits_call; reflexivity
        | apply emits_bind; [|intros [?|]] ].

Lemma moveLink_emits pid iface link move :
  emits not_fs (moveLink pid iface link move).
Proof. unfold moveLink. destruct move; repeat emits_step. Qed.

Lemma provision_emits pid iface : emits not_fs (provision pid iface).
Proof.
  unfold provision.
  destruct (String.eqb (Name iface) ""); [apply emits_ret|].
  cbv zeta.
  destruct (negb (String.eqb (Peer iface) "") && String.eqb (Add iface) "");
    match goal with
    | |- context [if ?b then (None, true) else _] => destruct b
    end;
    match goal with
    | |- context [if negb ?b then _ else _] => destruct b
    end; cbn [negb];
    try match goal with
        | |- context [linkToAdd ?i ?n] => destruct (linkToAdd i n)
        end;
    repeat first [ apply moveLink_emits | emits_step ].
Qed.

Lemma rangeInterfaces_emits pid ifaces :
  emits not_fs (rangeInterfaces pid ifaces).
Proof.
  induction ifaces as [|i ifaces IH]; cbn [rangeInterfaces].
  - apply emits_ret.
  - apply emits_bind; [apply provision_emits|].
    intros [err|]; [apply emits_ret|exact IH].
Qed.





(** ** More on the mount option translator *)

Lemma parseStep_isData fl data o :
  parseStep (fl, data) o
  = if isData o then (fl, data ++ [o]) else (fst (parseStep (fl, data) o), data).
Proof.
  unfold parseStep, isData. destruct (lookup flags o) as [f|]; [|reflexivity].
  destruct (flag f =? 0); cbn [negb]; [reflexivity|].
  now destruct (clear f).
Qed.

Lemma parseLoop_data options : forall fl data,
  snd (parseLoop options (fl, data)) = data ++ filter isData options.
Proof.
  induction options as [|o options IH]; intros fl data.
  - cbn. now rewrite app_nil_r.
  - cbn [parseLoop fold_left filter]. rewrite parseStep_isData.
    destruct (isData o).
    + change (fold_left parseStep options ?a) with (parseLoop options a).
      rewrite IH. now rewrite <- app_assoc.
    + apply IH.
Qed.

Lemma parseLoop_flag_tokens options : forall fl data data',
  fst (parseLoop options (fl, data))
  = fst (parseLoop (filter (fun o => negb (isData o)) options) (fl, data')).
Proof.
  induction options as [|o options IH]; intros fl data data'; [reflexivity|].
  cbn [parseLoop fold_left filter]. rewrite parseStep_isData.
  destruct (isData o) eqn:E; cbn [negb].
  - apply IH.
  - cbn [fold_left]. rewrite (parseStep_isData fl data' o), E.
    rewrite (parseStep_flag fl data data' o). apply IH.
Qed.

(** X1: The translator splits its input: the data is the tokens that are
    not in the table or have the flag 0 there, in input order and joined
    with commas, whatever flag tokens stand between them; the flag is
    that of the other tokens alone. *)
Theorem parseMountOptions_split (options : list string) :
  parseMountOptions options
  = (fst (parseMountOptions (filter (fun o => negb (isData o)) options)),
     String.concat "," (filter isData options)).
Proof.
  rewrite (surjective_pairing (parseMountOptions options)). f_equal.
  - rewrite !parseMountOptions_flag. apply parseLoop_flag_tokens.
  - unfold parseMountOptions.
    pose proof (parseLoop_data options 0 []) as H.
    destruct (parseLoop options (0, [])) as [fl data]. cbn [snd] in *.
    now rewrite H.
Qed.

(** Without a clearing token, the flag is the union of the flags of the
    tokens. *)
Lemma parseLoop_union options : forall fl data,
  (forall o, In o options -> isClearing o = false) ->
  fst (parseLoop options (fl, data))
  = Z.lor fl (fold_right (fun o acc => Z.lor (flagOf o) acc) 0 options).
Proof.
  induction options as [|o options IH]; intros fl data H.
  - cbn. now rewrite Z.lor_0_r.
  - cbn [parseLoop fold_left fold_right].
    assert (E : exists data1,
               parseStep (fl, data) o = (Z.lor fl (flagOf o), data1)).
    { pose proof (H o (or_introl eq_refl)) as Hc.
      unfold parseStep, isClearing, flagOf in *.
      destruct (lookup flags o) as [f|].
      - destruct (flag f =? 0) eqn:E0; cbn [negb andb] in *.
        + apply Z.eqb_eq in E0. rewrite E0, Z.lor_0_r. now eexists.
        + rewrite Hc. now eexists.
      - rewrite Z.lor_0_r. now eexists. }
    destruct E as [data1 ->].
    change (fold_left parseStep options ?a) with (parseLoop options a).
    rewrite IH by (intros o' Ho'; apply H; now right).
    now rewrite Z.lor_assoc.
Qed.

Lemma union_permutation (l l' : list string) :
  Permutation l l' ->
  fold_right (fun o acc => Z.lor (flagOf o) acc) 0 l
  = fold_right (fun o acc => Z.lor (flagOf o) acc) 0 l'.
Proof.
  induction 1 as [|x l l' _ IH|x y l|l l' l'' _ IH1 _ IH2]; cbn [fold_right].
  - reflexivity.
  - now rewrite IH.
  - rewrite !Z.lor_assoc. f_equal. apply Z.lor_comm.
  - now rewrite IH1.
Qed.

(** X3: The order of the tokens does not matter when none of them clears:
    the flag is then the union of the flags of the tokens, the same for
    every order of the list. *)
Theorem parseMountOptions_order_free (options options' : list string) :
  (forall o, In o options -> isClearing o = false) ->
  Permutation options options' ->
  fst (parseMountOptions options)
  = fold_right (fun o acc => Z.lor (flagOf o) acc) 0 options
  /\ fst (parseMountOptions options') = fst (parseMountOptions options).
Proof.
  intros H HP.
  assert (H' : forall o, In o options' -> isClearing o = false).
  { intros o Ho. apply H. apply Permutation_sym in HP.
    now apply (Permutation_in o HP). }
  rewrite !parseMountOptions_flag.
  rewrite (parseLoop_union options 0 [] H), (parseLoop_union options' 0 [] H').
  rewrite !Z.lor_0_l. split; [reflexivity|].
  symmetry. now apply union_permutation.
Qed.

(** What a list of tokens does to a flag: it clears a set of bits and
    sets another. *)
Lemma parseLoop_mask options :
  exists M V, forall fl data,
    fst (parseLoop options (fl, data)) = Z.lor (Z.ldiff fl M) V.
Proof.
  induction options as [|o options [M [V IH]]].
  - exists 0, 0. intros fl data. cbn. now rewrite Z.ldiff_0_r, Z.lor_0_r.
  - assert (E : exists Mo Vo, forall fl data,
               fst (parseStep (fl, data) o) = Z.lor (Z.ldiff fl Mo) Vo).
    { unfold parseStep. destruct (lookup flags o) as [f|].
      - destruct (negb (flag f =? 0)).
        + destruct (clear f).
          * exists (flag f), 0. intros. cbn. now rewrite Z.lor_0_r.
          * exists 0, (flag f). intros. cbn. now rewrite Z.ldiff_0_r.
        + exists 0, 0. intros. cbn. now rewrite Z.ldiff_0_r, Z.lor_0_r.
      - exists 0, 0. intros. cbn. now rewrite Z.ldiff_0_r, Z.lor_0_r. }
    destruct E as [Mo [Vo E]].
    exists (Z.lor Mo M), (Z.lor (Z.ldiff Vo M) V). intros fl data.
    cbn [parseLoop fold_left]. specialize (E fl data).
    destruct (parseStep (fl, data) o) as [fl1 data1]. cbn [fst] in E.
    change (fold_left parseStep options ?a) with (parseLoop options a).
    rewrite IH, E. apply Z.bits_inj'; intros n _.
    rewrite ?Z.lor_spec, ?Z.ldiff_spec, ?Z.lor_spec, ?Z.ldiff_spec.
    destruct (Z.testbit fl n), (Z.testbit Mo n), (Z.testbit Vo n),
      (Z.testbit M n), (Z.testbit V n); reflexivity.
Qed.

(** X4: Translating is idempotent: a list of tokens given twice in a row
    leaves the flag it leaves when given once. *)
Theorem parseMountOptions_repeat (before options : list string) :
  fst (parseMountOptions (before ++ options ++ options))
  = fst (parseMountOptions (before ++ options)).
Proof.
  assert (A : forall l l' acc,
             parseLoop (l ++ l') acc = parseLoop l' (parseLoop l acc))
    by (intros; apply fold_left_app).
  rewrite !parseMountOptions_flag, !A.
  destruct (parseLoop before (0, [])) as [fl0 d0].
  destruct (parseLoop_mask options) as [M [V H]].
  pose proof (H fl0 d0) as H1.
  destruct (parseLoop options (fl0, d0)) as [fl1 d1]. cbn [fst] in H1.
  rewrite H. cbn [fst]. subst fl1. apply Z.bits_inj'; intros n _.
  rewrite ?Z.lor_spec, ?Z.ldiff_spec, ?Z.lor_spec, ?Z.ldiff_spec.
  destruct (Z.testbit fl0 n), (Z.testbit M n), (Z.testbit V n); reflexivity.
Qed.

(** ** More on the filesystem preparer *)

Lemma attempt_ok_all cs : forall t t1,
  attempt cs t = (None, t1) ->
  forall pre c post, cs = pre ++ c :: post -> sys (t ++ pre) c = None.
Proof.
  induction cs as [|c0 cs IH]; intros t t1 H pre c post E.
  - now destruct pre.
  - rewrite attempt_cons in H. destruct (sys t c0) eqn:E0; [discriminate|].
    destruct pre as [|c1 pre]; cbn [app] in E; injection E as <- ->.
    + now rewrite app_nil_r.
    + replace (t ++ c0 :: pre) with ((t ++ [c0]) ++ pre)
        by now rewrite <- app_assoc.
      now apply (IH _ _ H pre c post).
Qed.

Lemma rangeMkdir_cons dir rest t :
  rangeMkdir (dir :: rest) t
  = match sys t (dirCall dir) with
    | Some err =>
        (Some (Errorf ("Cannot create directory " +++ dir
                       +++ ": " +++ Error err)), t ++ [dirCall dir])
    | None => rangeMkdir rest (t ++ [dirCall dir])
    end.
Proof.
  cbn [rangeMkdir]. cbv [bind call ret dirCall].
  now destruct (sys t (os_MkdirAll dir mode0755)).
Qed.

Lemma rangeMkdir_plan dirs : forall t,
  match attempt (map dirCall dirs) t with
  | (None, t1) => rangeMkdir dirs t = (None, t1)
  | (Some _, t1) => exists err, rangeMkdir dirs t = (Some err, t1)
  end.
Proof.
  induction dirs as [|d dirs IH]; intros t; [reflexivity|].
  cbn [map]. rewrite attempt_cons, rangeMkdir_cons.
  destruct (sys t (dirCall d)); [now eexists|apply IH].
Qed.

Lemma rangeMounts_plan mounts : forall t,
  match attempt (flat_map mountCalls mounts) t with
  | (None, t1) => rangeMounts mounts t = (None, t1)
  | (Some _, t1) => exists err, rangeMounts mounts t = (Some err, t1)
  end.
Proof.
  induction mounts as [|m mounts IH]; intros t; [reflexivity|].
  cbn [flat_map mountCalls app]. rewrite !attempt_cons, rangeMounts_cons.
  rewrite mountOne_run.
  destruct (sys t (mkdirCall m)); [now eexists|].
  destruct (sys (t ++ [mkdirCall m]) (mountCall m)).
  - unfold mountCalls. rewrite <- app_assoc. now eexists.
  - unfold mountCalls. rewrite <- app_assoc. apply IH.
Qed.

(** X5: The directories of the configuration are created after the mounts,
    in the order of the list, with [MkdirAll] and mode 0755.  When
    creating one fails after the ones before it succeeded, the result is
    an error naming that directory, and nothing is called afterwards: no
    later directory is created, [lower] is not probed and [rootfs] is
    not mounted. *)
Theorem prepare_mkdir_in_order (path : string) (runtime : Runtime)
    (t t1 t2 : trace) (pre : list string) (dir : string)
    (post : list string) (err : error) :
  rangeMounts (Mounts runtime) t = (None, t1) ->
  Mkdir runtime = pre ++ dir :: post ->
  attempt (map (fun d => os_MkdirAll d 493) pre) t1 = (None, t2) ->
  sys t2 (os_MkdirAll dir 493) = Some err ->
  prepareFilesystem path runtime t
  = (Some (Errorf ("Cannot create directory " +++ dir +++ ": " +++ Error err)),
     t1 ++ map (fun d => os_MkdirAll d 493) pre ++ [os_MkdirAll dir 493]).
Proof.
  intros Hm Hsplit Hpre Hdir.
  change (fun d => os_MkdirAll d 493) with dirCall in *.
  pose proof (attempt_ok_trace _ _ _ Hpre) as Ht2.
  pose proof (rangeMkdir_plan pre t1) as Hp. rewrite Hpre in Hp.
  unfold prepareFilesystem. unfold bind at 1. rewrite Hm.
  unfold bind at 1. rewrite Hsplit.
  assert (E : rangeMkdir (pre ++ dir :: post) t1
              = (Some (Errorf ("Cannot create directory " +++ dir
                               +++ ": " +++ Error err)), t2 ++ [dirCall dir])).
  { clear - Hp Hdir. revert t1 Hp.
    induction pre as [|d pre IH]; intros t1 Hp.
    - cbn in Hp. injection Hp as <-. cbn [app].
      rewrite rangeMkdir_cons.
      change (dirCall dir) with (os_MkdirAll dir 493). now rewrite Hdir.
    - cbn [app]. rewrite rangeMkdir_cons. rewrite rangeMkdir_cons in Hp.
      destruct (sys t1 (dirCall d)); [discriminate|]. now apply IH. }
  rewrite E. cbn [ret]. now rewrite Ht2, <- app_assoc.
Qed.

(** X6: The mounts and the directories of the configuration form one plan:
    the calls of the mounts in order, then those of the directories in
    order.  [prepareFilesystem] makes the calls of the plan up to the
    first that fails and then stops with an error; it probes [lower]
    only after the whole plan succeeded. *)
Theorem prepare_follows_plan (path : string) (runtime : Runtime) (t : trace) :
  match attempt (configPlan runtime) t with
  | (None, t1) =>
      t1 = t ++ configPlan runtime
      /\ prepareFilesystem path runtime t = prepareProbe path t1
  | (Some _, t1) =>
      exists err, prepareFilesystem path runtime t = (Some err, t1)
  end.
Proof.
  unfold configPlan. rewrite attempt_app.
  pose proof (rangeMounts_plan (Mounts runtime) t) as Hm.
  destruct (attempt (flat_map mountCalls (Mounts runtime)) t)
    as [[e|] t1] eqn:Em.
  - destruct Hm as [err Hm]. exists err.
    unfold prepareFilesystem. unfold bind at 1. now rewrite Hm.
  - pose proof (rangeMkdir_plan (Mkdir runtime) t1) as Hd.
    pose proof (attempt_ok_trace _ _ _ Em) as Ht1.
    destruct (attempt (map dirCall (Mkdir runtime)) t1) as [[e|] t2] eqn:Ed.
    + destruct Hd as [err Hd]. exists err.
      unfold prepareFilesystem. unfold bind at 1. rewrite Hm.
      unfold bind at 1. now rewrite Hd.
    + split.
      * apply attempt_ok_trace in Ed. now rewrite Ed, Ht1, <- app_assoc.
      * now apply (prepareFilesystem_probe path runtime t t1 t2).
Qed.

(** X7: When [prepareFilesystem] returns success, the last call it made is a
    mount onto [rootfs], and that mount succeeded. *)
Theorem prepare_success_mounts_rootfs (path : string) (runtime : Runtime)
    (t t' : trace) :
  prepareFilesystem path runtime t = (None, t') ->
  exists t0 c,
    t' = t0 ++ [c] /\ mountsOn (Join path "rootfs") c /\ sys t0 c = None.
Proof.
  unfold prepareFilesystem. unfold bind at 1.
  destruct (rangeMounts (Mounts runtime) t) as [[e|] t1]; [discriminate|].
  unfold bind at 1.
  destruct (rangeMkdir (Mkdir runtime) t1) as [[e|] t2]; [discriminate|].
  rewrite prepareProbe_run.
  destruct (sys t2 (probeCall path)) as [err|].
  - destruct (IsNotExist err); [|discriminate].
    rewrite prepareRO_run. intros [= H <-].
    exists (t2 ++ [probeCall path]), (roMount path).
    split; [reflexivity|]. split; [|exact H]. unfold roMount, mountsOn.
    now repeat eexists.
  - rewrite prepareRW_steps. intros H.
    pose proof (attempt_ok_trace _ _ _ H) as ->.
    pose proof (attempt_ok_all _ _ _ H (firstn 4 (rwSteps path))
                  (nth 4 (rwSteps path) (probeCall path)) [] eq_refl) as Hok.
    exists ((t2 ++ [probeCall path]) ++ firstn 4 (rwSteps path)),
      (nth 4 (rwSteps path) (probeCall path)).
    split; [now rewrite <- (app_assoc (t2 ++ [probeCall path]))|].
    split; [|exact Hok].
    unfold mountsOn. cbn. now repeat eexists.
Qed.

Lemma emits_weaken {A : Type} (P Q : Call -> bool) (m : M A) :
  (forall c, P c = true -> Q c = true) -> emits P m -> emits Q m.
Proof.
  intros HPQ Hm t. destruct (Hm t) as [ext [E F]]. exists ext.
  split; [exact E|]. rewrite forallb_forall in *. auto.
Qed.

Lemma prepares_no_teardown c : prepares c = true -> no_teardown c = true.
Proof. now destruct c. Qed.

Lemma not_fs_no_teardown c : not_fs c = true -> no_teardown c = true.
Proof. now destruct c. Qed.

Lemma prepareFilesystem_emits path runtime :
  emits prepares (prepareFilesystem path runtime).
Proof.
  assert (Hm : forall ms, emits prepares (rangeMounts ms)).
  { induction ms as [|m ms IH]; cbn [rangeMounts]; [apply emits_ret|].
    apply emits_bind; [|intros [?|]; [apply emits_ret|exact IH]].
    unfold mountOne. cbv zeta.
    apply emits_bind; [apply emits_call; reflexivity|].
    intros [?|]; [apply emits_ret|].
    destruct (parseMountOptions (specs.Options m)). repeat emits_step. }
  assert (Hd : forall ds, emits prepares (rangeMkdir ds)).
  { induction ds as [|d ds IH]; cbn [rangeMkdir]; [apply emits_ret|].
    apply emits_bind; [apply emits_call; reflexivity|].
    intros [?|]; [apply emits_ret|exact IH]. }
  unfold prepareFilesystem.
  apply emits_bind; [apply Hm|]. intros [?|]; [apply emits_ret|].
  apply emits_bind; [apply Hd|]. intros [?|]; [apply emits_ret|].
  unfold prepareProbe.
  apply emits_bind; [apply emits_call; reflexivity|].
  intros [err|].
  - destruct (IsNotExist err); [|apply emits_ret].
    unfold prepareRO. repeat emits_step.
  - unfold prepareRW. repeat emits_step.
Qed.

Lemma prepareProcess_emits pid runtime :
  emits no_teardown (prepareProcess pid runtime).
Proof.
  assert (Hb : forall bs, emits no_teardown (rangeBinds bs pid)).
  { induction bs as [|[ns path] bs IH]; cbn [rangeBinds]; [apply emits_ret|].
    apply emits_bind; [|intros [?|]; [apply emits_ret|exact IH]].
    unfold bindNS. destruct (String.eqb path ""); repeat emits_step. }
  unfold prepareProcess.
  apply emits_bind.
  - apply (emits_weaken not_fs); [apply not_fs_no_teardown|].
    apply rangeInterfaces_emits.
  - intros [?|]; [apply emits_ret|].
    apply emits_bind; [apply Hb|]. intros [?|]; apply emits_ret.
Qed.

(** X8: A preparation never tears down.  [prepareFilesystem] only creates
    directories, probes and mounts; neither it nor [prepareProcess] ever
    unmounts or removes anything, also when it fails half-way: what a
    failed preparation leaves behind is left to [cleanup]. *)
Theorem preparation_never_tears_down (path : string) (pid : Z)
    (runtime : Runtime) (t : trace) :
  only prepares t (snd (prepareFilesystem path runtime t))
  /\ only no_teardown t (snd (prepareFilesystem path runtime t))
  /\ only no_teardown t (snd (prepareProcess pid runtime t)).
Proof.
  split; [apply prepareFilesystem_emits|]. split.
  - apply (emits_weaken prepares); [apply prepares_no_teardown|].
    apply prepareFilesystem_emits.
  - apply prepareProcess_emits.
Qed.

(** X9: The teardown of a strategy unmounts what the strategy mounted: when
    the read-only or the writable strategy succeeded, the targets its
    calls mounted on are the targets the teardown of that strategy
    unmounts. *)
Theorem teardown_unmounts_the_mounts (s : strategy) (path : string)
    (t t1 t' : trace) :
  prepareWith s path t = (None, t1) ->
  exists ext ext',
    t1 = t ++ ext
    /\ snd (cleanupWith s path t') = t' ++ ext'
    /\ forall target,
         (exists c, In c ext /\ mountsOn target c)
         <-> In (unix_Unmount target 0) ext'.
Proof.
  destruct s; cbn [prepareWith cleanupWith].
  - rewrite prepareRO_run, cleanupRO_run. intros [= _ <-].
    do 2 eexists. split; [reflexivity|]. split; [reflexivity|].
    intros target. split.
    + intros [c [[<-|[]] [src [ty [fl [d E]]]]]]. injection E as _ <- _ _.
      now left.
    + intros [[= <-]|[]]. exists (roMount path). split; [now left|].
      unfold roMount, mountsOn. now repeat eexists.
  - rewrite prepareRW_steps, cleanupRW_run. intros H.
    apply attempt_ok_trace in H as ->.
    do 2 eexists. split; [reflexivity|]. split; [reflexivity|].
    intros target. split.
    + intros [c [Hin [src [ty [fl [d E]]]]]]. subst c. cbn in Hin.
      destruct Hin as [E|[E|[E|[E|[E|[]]]]]]; try discriminate;
        injection E as _ <- _ _; cbn; auto.
    + cbn. intros [E|[E|[E|[E|[]]]]]; try discriminate; injection E as <-.
      * exists (nth 4 (rwSteps path) (probeCall path)).
        split; [cbn; auto 6|]. unfold mountsOn. cbn. now repeat eexists.
      * exists (nth 0 (rwSteps path) (probeCall path)).
        split; [cbn; auto|]. unfold mountsOn. cbn. now repeat eexists.
Qed.

(** ** More on the process preparation *)





(** X11: An interface without a name is refused with an error and without
    any call, whatever its other fields.  In a list that holds it,
    [prepareProcess] always fails, and the calls it makes are the calls
    of the interfaces before it. *)
Theorem nameless_interface_fails_first (pid : Z) (runtime : Runtime)
    (pre : list Interface) (iface : Interface) (post : list Interface)
    (t : trace) :
  Interfaces runtime = pre ++ iface :: post ->
  Name iface = "" ->
  (forall t1,
     provision pid iface t1 = (Some (Errorf "Interface requires a name"), t1))
  /\ prepareProcess pid runtime t
     = (match fst (rangeInterfaces pid pre t) with
        | Some err => Some err
        | None => Some (Errorf "Interface requires a name")
        end,
        snd (rangeInterfaces pid pre t)).
Proof.
  intros Hsplit Hname.
  assert (Hp : forall t1, provision pid iface t1
                          = (Some (Errorf "Interface requires a name"), t1)).
  { intros t1. unfold provision. now rewrite Hname. }
  split; [exact Hp|].
  rewrite prepareProcess_run, Hsplit, rangeInterfaces_app.
  destruct (rangeInterfaces pid pre t) as [[err|] t1]; [reflexivity|].
  now rewrite rangeInterfaces_cons, Hp.
Qed.

(** X12: An interface with a peer and no kind is handled as the same
    interface of kind veth. *)
Theorem peer_implies_veth (pid : Z) (iface : Interface) (t : trace) :
  Peer iface <> "" ->
  Add iface = "" ->
  provision pid iface t = provision pid (withAdd iface "veth") t.
Proof.
  destruct iface as [name add peer inRoot]. cbn [Peer Add].
  intros Hpeer ->. apply String.eqb_neq in Hpeer.
  unfold provision, withAdd. cbn [Name Add Peer CreateInRoot].
  rewrite Hpeer. reflexivity.
Qed.

Lemma moveLink_run pid iface link move t :
  moveLink pid iface link move t
  = if move then
      match sys t (netlink_LinkSetNsPid link pid) with
      | Some err =>
          (Some (Errorf ("Cannot move interface " +++ Name iface
                         +++ " into namespace: " +++ Error err)),
           t ++ [netlink_LinkSetNsPid link pid])
      | None =>
          (None,
           t ++ [ netlink_LinkSetNsPid link pid;
                  Fprintf_Stderr ("Moved interface " +++ Name iface
                                  +++ " to pid " +++ itoa pid +++ newline) ])
      end
    else (None, t).
Proof.
  unfold moveLink. destruct move; [|reflexivity].
  cbv [bind call ret]. destruct (sys t (netlink_LinkSetNsPid link pid));
    now rewrite <- ?app_assoc.
Qed.

Lemma provision_creation_run (pid : Z) (iface : Interface) (t : trace) :
  Name iface <> "" ->
  effectiveAdd iface <> "" ->
  (effectiveAdd iface = "veth" -> Peer iface <> "") ->
  let kind := effectiveAdd iface in
  let inRoot := CreateInRoot iface || String.eqb kind "veth" in
  let la := {| netlink.Name := Name iface;
               netlink.Namespace := if inRoot then None else Some pid |} in
  let link := if String.eqb kind "veth" then netlink.Veth la (Peer iface)
              else netlink.GenericLink la kind in
  let created := Fprintf_Stderr ("Created interface " +++ Name iface
                                 +++ " type " +++ kind +++ newline) in
  let moved := Fprintf_Stderr ("Moved interface " +++ Name iface
                               +++ " to pid " +++ itoa pid +++ newline) in
  provision pid iface t
  = match sys t (netlink_LinkAdd link) with
    | Some err =>
        (Some (Errorf ("Link add " +++ Name iface +++ " of type " +++ kind
                       +++ " failed: " +++ Error err)),
         t ++ [netlink_LinkAdd link])
    | None =>
        if inRoot then
          match sys (t ++ [netlink_LinkAdd link; created])
                  (netlink_LinkSetNsPid link pid) with
          | Some err =>
              (Some (Errorf ("Cannot move interface " +++ Name iface
                             +++ " into namespace: " +++ Error err)),
               t ++ [netlink_LinkAdd link; created;
                     netlink_LinkSetNsPid link pid])
          | None =>
              (None,
               t ++ [netlink_LinkAdd link; created;
                     netlink_LinkSetNsPid link pid; moved])
          end
        else (None, t ++ [netlink_LinkAdd link; created])
    end.
Proof.
  destruct iface as [name add peer inRoot0].
  unfold effectiveAdd. cbn [Name Add Peer CreateInRoot].
  intros Hname Hkind Hpeer. apply String.eqb_neq in Hname.
  unfold provision. cbn [Name Add Peer CreateInRoot]. rewrite Hname.
  destruct (String.eqb_spec peer "") as [->|Hp];
    destruct (String.eqb_spec add "") as [->|Ha];
    cbn [negb andb] in *; [now contradiction Hkind| | |].
  - (* a kind, no peer *)
    destruct (String.eqb_spec add "veth") as [->|Hv];
      [now contradiction (Hpeer eq_refl)|].
    apply String.eqb_neq in Ha, Hv.
    unfold linkToAdd. cbn [Name Add Peer CreateInRoot]. rewrite Ha, Hv.
    cbn [negb]. rewrite !orb_false_r.
    destruct inRoot0; cbv [bind call]; cbn [ret];
      (destruct (sys t (netlink_LinkAdd _)); [reflexivity|]);
      rewrite moveLink_run; cbn [Name]; rewrite <- ?app_assoc; cbn [app];
      [|reflexivity].
    destruct (sys _ (netlink_LinkSetNsPid _ _));
      now rewrite <- ?app_assoc.
  - (* a peer, no kind: a veth *)
    apply String.eqb_neq in Hp.
    unfold withAdd, linkToAdd. cbn [Name Add Peer CreateInRoot]. cbn [String.eqb Ascii.eqb Bool.eqb].
    rewrite Hp, !orb_true_r. cbn [negb].
    cbv [bind call]; cbn [ret].
    destruct (sys t (netlink_LinkAdd _)); [reflexivity|].
    rewrite moveLink_run; cbn [Name]; rewrite <- ?app_assoc; cbn [app].
    destruct (sys _ (netlink_LinkSetNsPid _ _));
      now rewrite <- ?app_assoc.
  - (* a kind and a peer *)
    destruct (String.eqb_spec add "veth") as [->|Hv].
    + apply String.eqb_neq in Hp.
      unfold linkToAdd. cbn [Name Add Peer CreateInRoot].
      cbn [String.eqb Ascii.eqb Bool.eqb].
      rewrite Hp, !orb_true_r. cbn [negb].
      cbv [bind call]; cbn [ret].
      destruct (sys t (netlink_LinkAdd _)); [reflexivity|].
      rewrite moveLink_run; cbn [Name]; rewrite <- ?app_assoc; cbn [app].
      destruct (sys _ (netlink_LinkSetNsPid _ _));
        now rewrite <- ?app_assoc.
    + apply String.eqb_neq in Ha, Hv.
      unfold linkToAdd. cbn [Name Add Peer CreateInRoot]. rewrite Ha, Hv.
      cbn [negb]. rewrite !orb_false_r.
      destruct inRoot0; cbv [bind call]; cbn [ret];
        (destruct (sys t (netlink_LinkAdd _)); [reflexivity|]);
        rewrite moveLink_run; cbn [Name]; rewrite <- ?app_assoc; cbn [app];
        [|reflexivity].
      destruct (sys _ (netlink_LinkSetNsPid _ _));
        now rewrite <- ?app_assoc.
Qed.

(** X13: Where a link is created, and whether it is moved.  An interface with
    a name and a kind (and a peer when the kind is veth) is created with
    [LinkAdd] under its name: a veth pair with its peer, any other kind
    as a generic link.  When [createInRoot] is set or the kind is veth,
    the link is created in the root namespace and then moved with
    [LinkSetNsPid] into the namespace of [pid]; otherwise it is created
    in the namespace of [pid] and not moved.  A failure of the creation
    or of the move is an error naming the interface, and the move is not
    tried after a failed creation. *)
Theorem link_creation_placement (pid : Z) (iface : Interface) (t : trace) :
  Name iface <> "" ->
  effectiveAdd iface <> "" ->
  (effectiveAdd iface = "veth" -> Peer iface <> "") ->
  let kind := effectiveAdd iface in
  let inRoot := CreateInRoot iface || String.eqb kind "veth" in
  let la := {| netlink.Name := Name iface;
               netlink.Namespace := if inRoot then None else Some pid |} in
  let link := if String.eqb kind "veth" then netlink.Veth la (Peer iface)
              else netlink.GenericLink la kind in
  let created := Fprintf_Stderr ("Created interface " +++ Name iface
                                 +++ " type " +++ kind +++ newline) in
  let moved := Fprintf_Stderr ("Moved interface " +++ Name iface
                               +++ " to pid " +++ itoa pid +++ newline) in
  provision pid iface t
  = match sys t (netlink_LinkAdd link) with
    | Some err =>
        (Some (Errorf ("Link add " +++ Name iface +++ " of type " +++ kind
                       +++ " failed: " +++ Error err)),
         t ++ [netlink_LinkAdd link])
    | None =>
        if inRoot then
          match sys (t ++ [netlink_LinkAdd link; created])
                  (netlink_LinkSetNsPid link pid) with
          | Some err =>
              (Some (Errorf ("Cannot move interface " +++ Name iface
                             +++ " into namespace: " +++ Error err)),
               t ++ [netlink_LinkAdd link; created;
                     netlink_LinkSetNsPid link pid])
          | None =>
              (None,
               t ++ [netlink_LinkAdd link; created;
                     netlink_LinkSetNsPid link pid; moved])
          end
        else (None, t ++ [netlink_LinkAdd link; created])
    end.
Proof. apply provision_creation_run. Qed.

Lemma provision_lookup_run (pid : Z) (iface : Interface) (t : trace) :
  Name iface <> "" ->
  Add iface = "" ->
  Peer iface = "" ->
  let find := netlink_LinkByName (Name iface) in
  let move := netlink_LinkSetNsPid (netlink.Existing (Name iface)) pid in
  let moved := Fprintf_Stderr ("Moved interface " +++ Name iface
                               +++ " to pid " +++ itoa pid +++ newline) in
  provision pid iface t
  = match sys t find with
    | Some err =>
        (Some (Errorf ("Cannot find interface " +++ Name iface
                       +++ ": " +++ Error err)), t ++ [find])
    | None =>
        match sys (t ++ [find]) move with
        | Some err =>
            (Some (Errorf ("Cannot move interface " +++ Name iface
                           +++ " into namespace: " +++ Error err)),
             t ++ [find; move])
        | None => (None, t ++ [find; move; moved])
        end
    end.
Proof.
  destruct iface as [name add peer inRoot0]. cbn [Name Add Peer].
  intros Hname -> ->. apply String.eqb_neq in Hname.
  unfold provision. cbn [Name Add Peer CreateInRoot]. rewrite Hname.
  destruct inRoot0;
    cbv beta iota zeta delta [Name Add Peer CreateInRoot String.eqb Ascii.eqb
                              Bool.eqb negb andb orb bind call];
    (destruct (sys t (netlink_LinkByName name)); [reflexivity|]);
    rewrite moveLink_run; cbn [Name];
    destruct (sys _ (netlink_LinkSetNsPid _ _));
    now rewrite <- ?app_assoc.
Qed.

(** X14: An interface with a name and neither kind nor peer is an existing
    link: it is looked up by name and then always moved into the
    namespace of [pid], whatever [createInRoot] says.  When the lookup
    fails the result is an error naming the interface and nothing is
    moved. *)
Theorem existing_link_is_moved (pid : Z) (iface : Interface) (t : trace) :
  Name iface <> "" ->
  Add iface = "" ->
  Peer iface = "" ->
  let find := netlink_LinkByName (Name iface) in
  let move := netlink_LinkSetNsPid (netlink.Existing (Name iface)) pid in
  let moved := Fprintf_Stderr ("Moved interface " +++ Name iface
                               +++ " to pid " +++ itoa pid +++ newline) in
  provision pid iface t
  = match sys t find with
    | Some err =>
        (Some (Errorf ("Cannot find interface " +++ Name iface
                       +++ ": " +++ Error err)), t ++ [find])
    | None =>
        match sys (t ++ [find]) move with
        | Some err =>
            (Some (Errorf ("Cannot move interface " +++ Name iface
                           +++ " into namespace: " +++ Error err)),
             t ++ [find; move])
        | None => (None, t ++ [find; move; moved])
        end
    end.
Proof. apply provision_lookup_run. Qed.

Lemma succeeded_app P e1 : forall t e2,
  succeeded P t e1 -> succeeded P (t ++ e1) e2 -> succeeded P t (e1 ++ e2).
Proof.
  induction e1 as [|c e1 IH]; intros t e2 H1 H2.
  - now rewrite app_nil_r in H2.
  - cbn [app succeeded] in *. destruct H1 as [Hc H1]. split; [exact Hc|].
    apply IH; [exact H1|]. now rewrite <- app_assoc.
Qed.

Lemma placed_app pid e1 e2 :
  placed pid (e1 ++ e2) = placed pid e1 ++ placed pid e2.
Proof.
  induction e1 as [|c e1 IH]; [reflexivity|]. cbn [app placed].
  destruct (placedBy pid c); cbn [app]; now rewrite IH.
Qed.

Ltac all_succeeded :=
  cbn [succeeded is_netlink]; rewrite <- ?app_assoc; cbn [app];
  repeat split; intros; try discriminate; try assumption.

(** A successful [provision] puts its interface into the namespace of
    [pid] with exactly one call, and its calls of the link layer all
    succeeded. *)
Lemma provision_places pid iface t t' :
  provision pid iface t = (None, t') ->
  exists ext,
    t' = t ++ ext
    /\ placed pid ext = [Name iface]
    /\ succeeded is_netlink t ext.
Proof.
  destruct (String.eqb_spec (Name iface) "") as [Hn|Hn].
  { unfold provision. apply String.eqb_eq in Hn. now rewrite Hn. }
  destruct (String.eqb_spec (effectiveAdd iface) "") as [Hk|Hk].
  - (* an existing link *)
    assert (Ha : Add iface = "" /\ Peer iface = "").
    { unfold effectiveAdd in Hk.
      destruct (String.eqb_spec (Peer iface) "") as [Hp|Hp];
        destruct (String.eqb_spec (Add iface) "") as [Ha|Ha];
        cbn [negb andb] in Hk; try discriminate; try contradiction; auto. }
    destruct Ha as [Ha Hp].
    rewrite (provision_lookup_run pid iface t Hn Ha Hp).
    destruct (sys t (netlink_LinkByName (Name iface))) eqn:E1; [discriminate|].
    destruct (sys _ (netlink_LinkSetNsPid _ _)) eqn:E2; [discriminate|].
    intros [= <-]. eexists. split; [reflexivity|]. split.
    + cbn. now rewrite Z.eqb_refl.
    + all_succeeded.
  - destruct (String.eqb_spec (Peer iface) "") as [Hp|Hp];
      [destruct (String.eqb_spec (effectiveAdd iface) "veth") as [Hv|Hv]|].
    + now rewrite (provision_veth_without_peer pid iface t Hv Hp).
    + rewrite (provision_creation_run pid iface t Hn Hk
                 (fun H => False_ind _ (Hv H))).
      apply String.eqb_neq in Hv. rewrite Hv, orb_false_r.
      destruct (sys t (netlink_LinkAdd _)) eqn:E1; [discriminate|].
      destruct (CreateInRoot iface).
      * destruct (sys _ (netlink_LinkSetNsPid _ _)) eqn:E2; [discriminate|].
        intros [= <-]. eexists. split; [reflexivity|]. split.
        -- cbn. now rewrite Z.eqb_refl.
        -- all_succeeded.
      * intros [= <-]. eexists. split; [reflexivity|]. split.
        -- cbn. now rewrite Z.eqb_refl.
        -- all_succeeded.
    + rewrite (provision_creation_run pid iface t Hn Hk (fun _ => Hp)).
      destruct (sys t (netlink_LinkAdd _)) eqn:E1; [discriminate|].
      destruct (CreateInRoot iface || String.eqb (effectiveAdd iface) "veth")
        eqn:Er.
      * destruct (sys _ (netlink_LinkSetNsPid _ _)) eqn:E2; [discriminate|].
        intros [= <-]. eexists. split; [reflexivity|]. split.
        -- cbn. rewrite Z.eqb_refl.
           now destruct (String.eqb (effectiveAdd iface) "veth").
        -- all_succeeded.
      * intros [= <-]. eexists. split; [reflexivity|]. split.
        -- cbn. destruct (String.eqb (effectiveAdd iface) "veth");
             cbn; now rewrite Z.eqb_refl.
        -- all_succeeded.
Qed.

(** X15: When the interfaces are all provisioned, each of them was put into
    the namespace of [pid] by exactly one call, a creation there or a
    move there, in the order of the list, and every call of the link
    layer that was made succeeded. *)
Theorem interfaces_placed_once (pid : Z) (ifaces : list Interface)
    (t t' : trace) :
  rangeInterfaces pid ifaces t = (None, t') ->
  exists ext,
    t' = t ++ ext
    /\ placed pid ext = map Name ifaces
    /\ succeeded is_netlink t ext.
Proof.
  revert t. induction ifaces as [|i ifaces IH]; intros t.
  - cbn. intros [= <-]. exists []. now rewrite app_nil_r.
  - rewrite rangeInterfaces_cons.
    destruct (provision pid i t) as [[err|] t1] eqn:E; [discriminate|].
    intros H. apply provision_places in E as [e1 [-> [P1 S1]]].
    apply IH in H as [e2 [-> [P2 S2]]].
    exists (e1 ++ e2). split; [now rewrite app_assoc|]. split.
    + now rewrite placed_app, P1, P2.
    + now apply succeeded_app.
Qed.

(** ** The configuration *)

(** X16: Without a [runtime.json] the configuration is the empty one, with
    which [prepareProcess] calls nothing and returns success and
    [prepareFilesystem] only probes and sets up the root filesystem;
    any other failure to read the file ends the program. *)
Theorem missing_config_does_nothing (path : string) (err : error) :
  ReadFile (Join path "runtime.json") = inr err ->
  if IsNotExist err then
    exists runtime,
      getRuntimeConfig path = Returned runtime
      /\ (forall pid t, prepareProcess pid runtime t = (None, t))
      /\ (forall t, prepareFilesystem path runtime t = prepareProbe path t)
  else
    getRuntimeConfig path
    = Fatalf ("Cannot read runtime config: " +++ Error err).
Proof.
  intros H. unfold getRuntimeConfig. rewrite H.
  destruct (IsNotExist err); [|reflexivity].
  exists zeroRuntime. repeat split.
Qed.

End Program.

(** ** The theorems at sample inputs *)

Lemma parseMountOptions_last_wins_witness :
  lookup flags "ro" = Some {| clear := false; flag := unix.MS_RDONLY |}
  /\ Z.testbit (flagOf "nosuid") 0 = false
  /\ Z.testbit (flagOf "rw") 0 = true
  /\ Z.testbit
       (fst (parseMountOptions (["nodev"; "rw"] ++ "ro" :: ["nosuid"; "x=1"])))
       0
     = true.
Proof.
  split; [reflexivity|]. split; [reflexivity|]. split; [reflexivity|].
  refine (proj1 (parseMountOptions_last_wins ["nodev"; "rw"]
                   ["nosuid"; "x=1"] "ro"
                   {| clear := false; flag := unix.MS_RDONLY |} 0 _ _ _ _)).
  - reflexivity.
  - discriminate.
  - reflexivity.
  - intros o' [<-|[<-|[]]]; reflexivity.
Defined.

Lemma prepare_writable_sequence_witness :
  sysOK (flat_map mountCalls (Mounts sampleRuntime)
         ++ [os_MkdirAll "/var/log/app" 493])
    (probeCall sampleJoin samplePath) = None
  /\ prepareFilesystem sampleJoin sysOK samplePath sampleRuntime []
     = (None,
        (flat_map mountCalls (Mounts sampleRuntime)
         ++ [os_MkdirAll "/var/log/app" 493]
         ++ [os_Stat "/containers/c1/lower"])
        ++ rwSteps sampleJoin samplePath).
Proof.
  split; [reflexivity|].
  refine (proj1 (proj2 (proj2
            (prepare_writable_sequence sampleJoin sysOK samplePath
               sampleRuntime []
               (flat_map mountCalls (Mounts sampleRuntime))
               (flat_map mountCalls (Mounts sampleRuntime)
                ++ [os_MkdirAll "/var/log/app" 493])
               _ _ _))) _).
  - reflexivity.
  - reflexivity.
  - reflexivity.
  - intros pre c post H. reflexivity.
Defined.

Lemma prepare_readonly_single_mount_witness :
  IsNotExist ENOENT = true
  /\ prepareFilesystem sampleJoin sysNoLower samplePath sampleRuntime []
     = (None,
        (flat_map mountCalls (Mounts sampleRuntime)
         ++ [os_MkdirAll "/var/log/app" 493])
        ++ [ os_Stat "/containers/c1/lower";
             unix_Mount "/containers/c1/rootfs" "/containers/c1/rootfs" ""
               unix.MS_BIND "" ]).
Proof.
  split; [reflexivity|].
  refine (proj1 (prepare_readonly_single_mount sampleJoin sysNoLower
                   samplePath sampleRuntime []
                   (flat_map mountCalls (Mounts sampleRuntime))
                   (flat_map mountCalls (Mounts sampleRuntime)
                    ++ [os_MkdirAll "/var/log/app" 493])
                   ENOENT _ _ _ _)); reflexivity.
Defined.

Lemma prepare_mounts_in_order_witness :
  prepareFilesystem sampleJoin sysNoProc samplePath sampleRuntime []
  = (Some (Errorf "Failed to mount proc: operation not permitted"),
     [ os_MkdirAll "/var/lib/data" 493;
       unix_Mount "tmpfs" "/var/lib/data" "tmpfs" unix.MS_NOSUID "size=10%";
       os_MkdirAll "/var/lib/proc" 493;
       unix_Mount "proc" "/var/lib/proc" "proc" unix.MS_RDONLY "defaults" ]).
Proof.
  refine (proj1 (proj2 (prepare_mounts_in_order sampleJoin sysNoProc
                          samplePath sampleRuntime []))
            [sampleMount] sampleProc [] (mountCalls sampleMount) EPERM
            _ _ _ _); reflexivity.
Defined.

Lemma bindNS_behaviour_witness :
  "/run/netns/c1" <> ""
  /\ bindNS sampleDir sysOK "net" "/run/netns/c1" 42 []
     = (None,
        [ os_MkdirAll "/run/netns" 493;
          os_Create "/run/netns/c1";
          File_Close "/run/netns/c1";
          unix_Mount "/proc/42/ns/net" "/run/netns/c1" "" unix.MS_BIND "" ]).
Proof.
  split; [discriminate|].
  refine (proj2 (bindNS_behaviour sampleDir sysOK "net" "/run/netns/c1" 42 [] _)).
  discriminate.
Defined.

Lemma veth_without_peer_fails_first_witness :
  prepareProcess sampleDir sysOK 42 sampleRuntime []
  = (Some (Errorf "Creating a veth pair veth0 requires a peer to be set"),
     [ netlink_LinkAdd
         (netlink.GenericLink
            {| netlink.Name := "dummy0"; netlink.Namespace := Some 42 |}
            "dummy");
       Fprintf_Stderr ("Created interface dummy0 type dummy" +++ newline) ]).
Proof.
  refine (proj1 (proj2 (veth_without_peer_fails_first sampleDir sysOK 42
            sampleRuntime
            [ {| Name := "dummy0"; Add := "dummy"; Peer := "";
                 CreateInRoot := false |} ]
            {| Name := "veth0"; Add := "veth"; Peer := "";
               CreateInRoot := false |}
            [ {| Name := "eth1"; Add := ""; Peer := "";
                 CreateInRoot := false |} ]
            [] _ _ _))); reflexivity.
Defined.

Lemma cleanup_probe_vs_prepare_probe_witness :
  cleanup_selects sampleJoin sysOK samplePath [] Writable
  /\ prepare_selects sampleJoin sysOK samplePath [] Writable.
Proof.
  pose proof (cleanup_probe_vs_prepare_probe sampleJoin sysOK samplePath [])
    as [Hsame [Hclean _]].
  assert (Hc : cleanup_selects sampleJoin sysOK samplePath [] Writable)
    by (apply Hclean; reflexivity).
  split; [exact Hc|]. apply Hsame, Hc.
Defined.

(** C1 fails as stated: when [lower] cannot be examined (the probe fails
    with permission denied), [cleanup] selects the read-only teardown
    and [prepareFilesystem] does not select the read-only strategy. *)
Lemma cleanup_probe_differs_on_other_errors :
  sysDenied [] (probeCall sampleJoin samplePath) = Some EACCES
  /\ IsNotExist EACCES = false
  /\ cleanup sampleJoin sysDenied samplePath []
     = (tt, [ os_Stat "/containers/c1/lower";
              unix_Unmount "/containers/c1/rootfs" 0 ])
  /\ prepareFilesystem sampleJoin sysDenied samplePath
       {| Mounts := []; Mkdir := []; Interfaces := [];
          BindNS := BindNS sampleRuntime |} []
     = (Some EACCES, [ os_Stat "/containers/c1/lower" ])
  /\ ~ (cleanup_selects sampleJoin sysDenied samplePath [] ReadOnly
        <-> prepare_selects sampleJoin sysDenied samplePath [] ReadOnly).
Proof.
  repeat (split; [reflexivity|]).
  intros [H _].
  assert (Hc : cleanup_selects sampleJoin sysDenied samplePath [] ReadOnly)
    by reflexivity.
  apply H in Hc. unfold prepare_selects in Hc. cbv in Hc. discriminate.
Qed.

(** ** Runs of the process preparation on a system where every call
    succeeds *)

Example provision_existing :
  provision sysOK 42
    {| Name := "eth1"; Add := ""; Peer := ""; CreateInRoot := false |} []
  = (None,
     [ netlink_LinkByName "eth1";
       netlink_LinkSetNsPid (netlink.Existing "eth1") 42;
       Fprintf_Stderr ("Moved interface eth1 to pid 42" +++ newline) ]).
Proof. reflexivity. Qed.

Example provision_implied_veth :
  provision sysOK 42
    {| Name := "veth0"; Add := ""; Peer := "veth1"; CreateInRoot := false |} []
  = (None,
     [ netlink_LinkAdd
         (netlink.Veth {| netlink.Name := "veth0"; netlink.Namespace := None |}
            "veth1");
       Fprintf_Stderr ("Created interface veth0 type veth" +++ newline);
       netlink_LinkSetNsPid
         (netlink.Veth {| netlink.Name := "veth0"; netlink.Namespace := None |}
            "veth1") 42;
       Fprintf_Stderr ("Moved interface veth0 to pid 42" +++ newline) ]).
Proof. reflexivity. Qed.

Example prepareProcess_binds_net :
  prepareProcess sampleDir sysOK 42
    {| Mounts := []; Mkdir := []; Interfaces := [];
       BindNS := BindNS sampleRuntime |} []
  = (None,
     [ os_MkdirAll "/run/netns" 493;
       os_Create "/run/netns/c1";
       File_Close "/run/netns/c1";
       unix_Mount "/proc/42/ns/net" "/run/netns/c1" "" unix.MS_BIND "" ]).
Proof. reflexivity. Qed.

Example cleanup_writable :
  cleanup sampleJoin sysOK samplePath []
  = (tt, [ os_Stat "/containers/c1/lower";
           os_RemoveAll "/containers/c1/rootfs";
           unix_Unmount "/containers/c1/rootfs" 0;
           os_RemoveAll "/containers/c1/tmp";
           unix_Unmount "/containers/c1/tmp" 0 ]).
Proof. reflexivity. Qed.

(** ** The further properties at sample inputs *)

Lemma parseMountOptions_order_free_witness :
  fst (parseMountOptions ["nodev"; "ro"; "noexec"])
  = fst (parseMountOptions ["ro"; "noexec"; "nodev"]).
Proof.
  refine (proj2 (parseMountOptions_order_free ["ro"; "noexec"; "nodev"]
                   ["nodev"; "ro"; "noexec"] _ _)).
  - intros o [<-|[<-|[<-|[]]]]; reflexivity.
  - apply Permutation_sym. apply (Permutation_cons_append ["ro"; "noexec"]).
Defined.

Lemma prepare_mkdir_in_order_witness :
  prepareFilesystem sampleJoin
    (failing (fun c => match c with
                       | os_MkdirAll p _ => String.eqb p "/var/log/app"
                       | _ => false
                       end) EPERM)
    samplePath sampleRuntime []
  = (Some (Errorf
             "Cannot create directory /var/log/app: operation not permitted"),
     flat_map mountCalls (Mounts sampleRuntime)
     ++ [os_MkdirAll "/var/log/app" 493]).
Proof.
  refine (prepare_mkdir_in_order sampleJoin _ samplePath sampleRuntime []
            (flat_map mountCalls (Mounts sampleRuntime))
            (flat_map mountCalls (Mounts sampleRuntime))
            [] "/var/log/app" [] EPERM _ _ _ _); reflexivity.
Defined.

Lemma prepare_success_mounts_rootfs_witness :
  exists t0 c,
    snd (prepareFilesystem sampleJoin sysNoLower samplePath sampleRuntime [])
    = t0 ++ [c]
    /\ mountsOn "/containers/c1/rootfs" c
    /\ sysNoLower t0 c = None.
Proof.
  refine (prepare_success_mounts_rootfs sampleJoin sysNoLower samplePath
            sampleRuntime [] _ _).
  reflexivity.
Defined.

Lemma teardown_unmounts_the_mounts_witness :
  exists ext ext',
    rwSteps sampleJoin samplePath = [] ++ ext
    /\ snd (cleanupWith sampleJoin sysOK Writable samplePath []) = [] ++ ext'
    /\ forall target,
         (exists c, In c ext /\ mountsOn target c)
         <-> In (unix_Unmount target 0) ext'.
Proof.
  refine (teardown_unmounts_the_mounts sampleJoin sysOK Writable samplePath
            [] (rwSteps sampleJoin samplePath) [] _).
  reflexivity.
Defined.


Lemma nameless_interface_fails_first_witness :
  prepareProcess sampleDir sysOK 42
    {| Mounts := []; Mkdir := [];
       Interfaces :=
         [ {| Name := ""; Add := "dummy"; Peer := ""; CreateInRoot := true |};
           {| Name := "eth1"; Add := ""; Peer := ""; CreateInRoot := false |} ];
       BindNS := BindNS sampleRuntime |} []
  = (Some (Errorf "Interface requires a name"), []).
Proof.
  refine (proj2 (nameless_interface_fails_first sampleDir sysOK 42 _ []
            {| Name := ""; Add := "dummy"; Peer := ""; CreateInRoot := true |}
            [ {| Name := "eth1"; Add := ""; Peer := "";
                 CreateInRoot := false |} ] [] _ _)); reflexivity.
Defined.

Lemma peer_implies_veth_witness :
  provision sysOK 42
    {| Name := "veth0"; Add := ""; Peer := "veth1"; CreateInRoot := false |} []
  = provision sysOK 42
      {| Name := "veth0"; Add := "veth"; Peer := "veth1";
         CreateInRoot := false |} [].
Proof.
  refine (peer_implies_veth sysOK 42
            {| Name := "veth0"; Add := ""; Peer := "veth1";
               CreateInRoot := false |} [] _ _).
  - discriminate.
  - reflexivity.
Defined.

Lemma link_creation_placement_witness :
  provision sysOK 42
    {| Name := "dummy0"; Add := "dummy"; Peer := ""; CreateInRoot := true |} []
  = (None,
     [ netlink_LinkAdd
         (netlink.GenericLink
            {| netlink.Name := "dummy0"; netlink.Namespace := None |} "dummy");
       Fprintf_Stderr ("Created interface dummy0 type dummy" +++ newline);
       netlink_LinkSetNsPid
         (netlink.GenericLink
            {| netlink.Name := "dummy0"; netlink.Namespace := None |} "dummy")
         42;
       Fprintf_Stderr ("Moved interface dummy0 to pid 42" +++ newline) ]).
Proof.
  refine (link_creation_placement sysOK 42
            {| Name := "dummy0"; Add := "dummy"; Peer := "";
               CreateInRoot := true |} [] _ _ _); discriminate.
Defined.

Lemma existing_link_is_moved_witness :
  provision sysOK 42
    {| Name := "eth1"; Add := ""; Peer := ""; CreateInRoot := false |} []
  = (None,
     [ netlink_LinkByName "eth1";
       netlink_LinkSetNsPid (netlink.Existing "eth1") 42;
       Fprintf_Stderr ("Moved interface eth1 to pid 42" +++ newline) ]).
Proof.
  refine (existing_link_is_moved sysOK 42
            {| Name := "eth1"; Add := ""; Peer := ""; CreateInRoot := false |}
            [] _ _ _); [discriminate|reflexivity|reflexivity].
Defined.

Lemma interfaces_placed_once_witness :
  exists ext,
    snd (rangeInterfaces sysOK 42
           [ {| Name := "dummy0"; Add := "dummy"; Peer := "";
                CreateInRoot := false |};
             {| Name := "veth0"; Add := ""; Peer := "veth1";
                CreateInRoot := false |};
             {| Name := "eth1"; Add := ""; Peer := "";
                CreateInRoot := false |} ] [])
    = [] ++ ext
    /\ placed 42 ext = ["dummy0"; "veth0"; "eth1"]
    /\ succeeded sysOK is_netlink [] ext.
Proof.
  refine (interfaces_placed_once sysOK 42
            [ {| Name := "dummy0"; Add := "dummy"; Peer := "";
                 CreateInRoot := false |};
              {| Name := "veth0"; Add := ""; Peer := "veth1";
                 CreateInRoot := false |};
              {| Name := "eth1"; Add := ""; Peer := "";
                 CreateInRoot := false |} ] [] _ _).
  reflexivity.
Defined.

Lemma missing_config_does_nothing_witness :
  exists runtime,
    getRuntimeConfig sampleJoin (fun _ => inr ENOENT) (fun _ => inr EPERM)
      samplePath = Returned runtime
    /\ (forall pid t, prepareProcess sampleDir sysOK pid runtime t = (None, t)).
Proof.
  pose proof (missing_config_does_nothing sampleJoin sampleDir sysOK
                (fun _ => inr ENOENT) (fun _ => inr EPERM) samplePath ENOENT
                eq_refl) as [runtime [H1 [H2 _]]].
  exists runtime. split; [exact H1|exact H2].
Defined.
